(** * Dynamic pod lifecycle: Gateway, Lifecycle Worker and Reaper

    A shallow embedding of the three services of the repository
    ([gateway/gateway.py], [worker/worker.py], [reaper/reaper.py]) and the
    properties of the session state machine they implement over one shared
    Redis store.

    Modelling conventions.
    - Python [str] values are Rocq strings read as sequences of code points
      below 256 (what an HTTP header decoded as latin-1 can hold).
    - The Redis database is a finite map from keys to hashes; a hash is a
      finite map from field names to strings ([decode_responses=True]).
    - Wall-clock time is an integer number of milliseconds; [time.time()]
      reads it, [int(time.time())] is its quotient by 1000.
    - Everything outside the three processes (other replicas writing to the
      store, the broker, the cluster API, the upstream pod, the duration of
      each call) is an oracle [Env] indexed by the number of external calls
      the process has made so far.
    - [time.time()] is a float, so [int(time.time())] has far fewer digits
      than the interpreter's limit on integer-string conversions.
    - The Gateway handler calls itself and loops on the clock; its model
      takes two budgets.  [depth] is the number of nested entries the
      interpreter's recursion limit still allows: the call beyond it fails
      with [RecursionError] inside the caller's [try], which answers 500.
      [polls] bounds the rounds of a long poll, which yields [OutOfFuel]
      when it runs out. *)

From Stdlib Require Import ZArith NArith String Ascii List Lia DecimalString.
From Stdlib Require DecimalZ DecimalPos.
From stdpp Require Import base option gmap strings list.

Local Open Scope string_scope.
Local Open Scope list_scope.
Local Open Scope nat_scope.

(** ** Python text primitives *)

Module Py.

Definition code (c : ascii) : N := N_of_ascii c.

Definition in_range (lo hi : N) (c : ascii) : bool :=
  ((lo <=? code c) && (code c <=? hi))%N.

(** [str.lower()] on one code point below 256: [A-Z] and the accented
    capitals U+00C0..U+00DE (except the multiplication sign U+00D7). *)
Definition lower_char (c : ascii) : ascii :=
  if in_range 65 90 c then ascii_of_N (code c + 32)
  else if in_range 192 222 c && negb (code c =? 215)%N
       then ascii_of_N (code c + 32)
  else c.

Fixpoint lower (s : string) : string :=
  match s with
  | EmptyString => EmptyString
  | String c r => String (lower_char c) (lower r)
  end.

(** The character class [[a-z0-9]]. *)
Definition is_a_z_0_9 (c : ascii) : bool :=
  in_range 97 122 c || in_range 48 57 c.

Definition dash : ascii := "-"%char.

(** [re.sub(r'[^a-z0-9]', '-', s)]: every character outside the class is
    replaced by one dash (no collapsing of runs). *)
Fixpoint re_sub_non_alnum (s : string) : string :=
  match s with
  | EmptyString => EmptyString
  | String c r =>
      String (if is_a_z_0_9 c then c else dash) (re_sub_non_alnum r)
  end.

Definition is_dash (c : ascii) : bool := (code c =? code dash)%N.

Fixpoint lstrip_dash (s : string) : string :=
  match s with
  | EmptyString => EmptyString
  | String c r => if is_dash c then lstrip_dash r else s
  end.

Fixpoint rstrip_dash (s : string) : string :=
  match s with
  | EmptyString => EmptyString
  | String c r =>
      match rstrip_dash r with
      | EmptyString => if is_dash c then EmptyString else String c EmptyString
      | r' => String c r'
      end
  end.

(** [s.strip('-')] *)
Definition strip_dash (s : string) : string := rstrip_dash (lstrip_dash s).

(** Truthiness of a string: [if s:] / [if not s:]. *)
Definition truthy (s : string) : bool :=
  match s with EmptyString => false | _ => true end.

(** Truthiness of a value that may be [None]. *)
Definition truthy_opt (o : option string) : bool :=
  match o with Some s => truthy s | None => false end.

(** [f"{x}"] where [x] is a string or [None]. *)
Definition fmt_opt (o : option string) : string :=
  match o with Some s => s | None => "None" end.

(** [sep in s] *)
Definition contains (sep : ascii) (s : string) : bool :=
  existsb (fun d => (code d =? code sep)%N) (list_ascii_of_string s).

(** [key.split(":")[-1]]: what follows the last colon (the whole string
    when there is none). *)
Fixpoint split_last (sep : ascii) (s : string) : string :=
  match s with
  | EmptyString => EmptyString
  | String c r =>
      if contains sep r then split_last sep r
      else if (code c =? code sep)%N then r else s
  end.

(** [str(n)] for an integer of at most [INT_MAX_STR_DIGITS] digits, which
    is all the services print: they only convert [int(time.time())], the
    integer part of a float. *)
Definition str_of_int (z : Z) : string := NilZero.string_of_int (Z.to_int z).

(** [sys.get_int_max_str_digits()], the interpreter's default. *)
Definition INT_MAX_STR_DIGITS : N := 4300.

(** What [int] strips at both ends of a string of code points below 256:
    tab to carriage return, the space, U+0085 and U+00A0.  (The separators
    U+001C..U+001F, which [str.strip] removes, are not among them.) *)
Definition is_space (c : ascii) : bool :=
  in_range 9 13 c || (code c =? 32)%N || (code c =? 133)%N || (code c =? 160)%N.

Fixpoint lstrip_space (s : string) : string :=
  match s with
  | EmptyString => EmptyString
  | String c r => if is_space c then lstrip_space r else s
  end.

Fixpoint rstrip_space (s : string) : string :=
  match s with
  | EmptyString => EmptyString
  | String c r =>
      match rstrip_space r with
      | EmptyString => if is_space c then EmptyString else String c EmptyString
      | r' => String c r'
      end
  end.

Definition is_digit (c : ascii) : bool := in_range 48 57 c.

(** Digits with single underscores allowed between two digits. *)
Fixpoint digits (acc : Z) (after_digit : bool) (s : string) : option Z :=
  match s with
  | EmptyString => if after_digit then Some acc else None
  | String c r =>
      if is_digit c
      then digits (10 * acc + Z.of_N (code c - 48)) true r
      else if (code c =? 95)%N && after_digit then digits acc false r
      else None
  end.

Fixpoint count_digits (s : string) : N :=
  match s with
  | EmptyString => 0
  | String c r => (if is_digit c then 1 else 0) + count_digits r
  end.

(** [int(s)] for a string in base ten; [None] stands for [ValueError]:
    surrounding whitespace is dropped, one sign may come first, and the
    rest is digits with single underscores between them, at most
    [INT_MAX_STR_DIGITS] digits in all (leading zeros count). *)
Definition int_of_str (s : string) : option Z :=
  match rstrip_space (lstrip_space s) with
  | String c r =>
      if (INT_MAX_STR_DIGITS <? count_digits (String c r))%N then None
      else if (code c =? 45)%N then Z.opp <$> digits 0 false r
      else if (code c =? 43)%N then digits 0 false r
      else digits 0 false (String c r)
  | EmptyString => None
  end.

End Py.


(** ** JSON values, as [json.loads] returns them *)

#[warnings="-register-all"]
Inductive JValue :=
| JNull
| JBool (b : bool)
| JNum (z : Z)
| JStr (s : string)
| JArr (items : list JValue)
| JObj (members : list (string * JValue)).

Module Json.

(** [dict.get(k)] on a decoded object; a repeated member name keeps its
    last value, as [json.loads] builds the dict. *)
Fixpoint get (k : string) (members : list (string * JValue)) : option JValue :=
  match members with
  | [] => None
  | (k', v) :: rest =>
      match get k rest with
      | Some v' => Some v'
      | None => if bool_decide (k' = k) then Some v else None
      end
  end.

(** Truthiness of a decoded value (floats behave as integers do: zero is
    falsy). *)
Definition truthy (v : JValue) : bool :=
  match v with
  | JNull => false
  | JBool b => b
  | JNum z => negb (z =? 0)%Z
  | JStr s => Py.truthy s
  | JArr items => match items with [] => false | _ => true end
  | JObj members => match members with [] => false | _ => true end
  end.

End Json.

(** ** The Redis store *)

Abbreviation Hash := (gmap string string).
Abbreviation Store := (gmap string (gmap string string)).

Module Redis.

Definition hgetall (key : string) (s : Store) : Hash := default ∅ (s !! key).

Definition hget (key field : string) (s : Store) : option string :=
  hgetall key s !! field.

(** [HSET key f1 v1 f2 v2 ...]: creates the hash when the key is absent,
    and writes all fields in one command. *)
Definition hset (key : string) (fields : list (string * string)) (s : Store) : Store :=
  <[key := foldl (fun h fv => <[fv.1 := fv.2]> h) (hgetall key s) fields]> s.

Definition del (key : string) (s : Store) : Store := delete key s.

Fixpoint starts_with (p s : string) : bool :=
  match p, s with
  | EmptyString, _ => true
  | String a p', String b s' => bool_decide (a = b) && starts_with p' s'
  | String _ _, EmptyString => false
  end.

(** [KEYS session:*] *)
Definition keys_session (s : Store) : list string :=
  filter (fun k => starts_with "session:" k = true) (map_to_list s).*1.

End Redis.

(** ** Cluster API, upstream pod, HTTP data *)

Record PodStatus := { phase : string; pod_ip : option string }.

Inductive Exn :=
| RedisConnectionError        (* redis.exceptions.ConnectionError *)
| RedisDataError              (* redis.exceptions.DataError *)
| ApiException (status : Z)   (* kubernetes.client.rest.ApiException *)
| JSONDecodeError
| AttributeError
| ValueError
| HttpxRequestError           (* httpx.RequestError, httpx.ConnectError *)
| BrokerError                 (* anything pika raises *)
| RecursionError              (* the interpreter's recursion limit is exceeded *)
| OtherError.

Inductive Reply (A : Type) :=
| Returns (a : A)
| Raises (e : Exn).
Arguments Returns {A} a.
Arguments Raises {A} e.

(** The pod description sent to the cluster by [get_pod_manifest]. *)
Record Manifest := {
  metadata_name : string;
  label_user_id : string;
  annotation_original_id : string;
  container_image : string;
  container_port : Z;
  restart_policy : string
}.

Record Request := {
  req_method : string;
  req_path : string;
  req_query : string;
  req_headers : list (string * string);
  req_body : string
}.

(** What [http_client.build_request] is given. *)
Record ProxyCall := {
  pc_method : string;
  pc_url : string;
  pc_headers : list (string * string);
  pc_params : string;
  pc_content : string
}.

Record Upstream := {
  up_status : Z;
  up_headers : list (string * string);
  up_raw : string
}.

Inductive Response :=
| Plain (content : string) (status_code : Z)     (* Response(content=..., status_code=...) *)
| InternalError (e : Exn)                        (* the 500 page that quotes the exception *)
| Streaming (u : Upstream)                       (* StreamingResponse of the upstream reply *)
| JsonNull.                                      (* the handler returned None *)

Definition status_of (r : Response) : Z :=
  match r with
  | Plain _ c => c
  | InternalError _ => 500
  | Streaming u => up_status u
  | JsonNull => 200
  end.

(** ** External calls, the oracle and the effect monad *)

Inductive Event :=
| EvHGetAll (key : string)                              (* HGETALL key *)
| EvHGet (key field : string)                           (* HGET key field *)
| EvHSet (key : string) (fields : list (string * string))  (* HSET key f v ... *)
| EvDel (key : string)                                  (* DEL key *)
| EvKeys                                                (* KEYS session:* *)
| EvSleep (ms : Z)
| EvPublish (user_id : string) (accepted : bool)        (* the message {"id": user_id} *)
| EvProxy (call : ProxyCall)
| EvReadPod (name : string)
| EvCreatePod (m : Manifest)
| EvWatchPod (name : string)
| EvDeletePod (name : string) (reply : Reply unit)
| EvAck.

(** The oracle: what the rest of the world answers to the [n]-th external
    call of the process under study. *)
Record Env := {
  interfere : nat -> Store -> Store;   (* writes of other processes that land before the call *)
  redis_up : nat -> bool;              (* false: the command raises ConnectionError *)
  elapse : nat -> N;                   (* milliseconds the call takes *)
  broker_up : nat -> bool;             (* false: publishing raises *)
  upstream : nat -> ProxyCall -> Reply Upstream;
  k8s_read : nat -> string -> Reply PodStatus;
  k8s_create : nat -> Manifest -> Reply unit;
  k8s_watch : nat -> string -> list PodStatus * option Exn;
  k8s_delete : nat -> string -> Reply unit
}.

Record World := {
  redis : Store;
  clock : Z;            (* milliseconds since the epoch *)
  calls : nat;          (* external calls made so far *)
  log : list Event      (* the calls, oldest first *)
}.

Inductive Result (A : Type) :=
| Val (a : A)
| Exc (e : Exn)
| OutOfFuel.
Arguments Val {A} a.
Arguments Exc {A} e.
Arguments OutOfFuel {A}.

Definition M (A : Type) : Type := Env -> World -> Result A * World.

Definition ret {A} (a : A) : M A := fun _ w => (Val a, w).

Definition raise {A} (e : Exn) : M A := fun _ w => (Exc e, w).

Definition diverge {A} : M A := fun _ w => (OutOfFuel, w).

Definition bind {A B} (m : M A) (k : A -> M B) : M B :=
  fun env w =>
    match m env w with
    | (Val a, w') => k a env w'
    | (Exc e, w') => (Exc e, w')
    | (OutOfFuel, w') => (OutOfFuel, w')
    end.

(** [try: m except Exception as e: h e] *)
Definition try_except {A} (m : M A) (h : Exn -> M A) : M A :=
  fun env w =>
    match m env w with
    | (Exc e, w') => h e env w'
    | r => r
    end.

Notation "x <- c1 ;; c2" := (bind c1 (fun x => c2))
  (at level 100, c1 at next level, right associativity).
Notation "c1 ;; c2" := (bind c1 (fun _ => c2))
  (at level 100, right associativity).

(** One external call: it is logged, takes [ms] plus the oracle's latency,
    and is numbered. *)
Definition called (ev : Event) (ms : Z) (env : Env) (w : World) (s : Store) : World :=
  {| redis := s;
     clock := clock w + ms + Z.of_N (elapse env (calls w));
     calls := S (calls w);
     log := log w ++ [ev] |}.

(** A Redis command: the other processes' writes land first, then the
    command runs atomically on the store, unless Redis is unreachable. *)
Definition redis_cmd {A} (ev : Event) (f : Store -> A * Store) : M A :=
  fun env w =>
    let s := interfere env (calls w) (redis w) in
    if redis_up env (calls w)
    then (Val (f s).1, called ev 0 env w (f s).2)
    else (Exc RedisConnectionError, called ev 0 env w s).

(** Any other external call, answered by the oracle. *)
Definition ask {A} (ev : Event) (ms : Z) (answer : Env -> nat -> Reply A) : M A :=
  fun env w =>
    match answer env (calls w) with
    | Returns a => (Val a, called ev ms env w (redis w))
    | Raises e => (Exc e, called ev ms env w (redis w))
    end.

Definition hgetall (key : string) : M Hash :=
  redis_cmd (EvHGetAll key) (fun s => (Redis.hgetall key s, s)).

Definition hget (key field : string) : M (option string) :=
  redis_cmd (EvHGet key field) (fun s => (Redis.hget key field s, s)).

Definition hset (key : string) (fields : list (string * string)) : M unit :=
  redis_cmd (EvHSet key fields) (fun s => (tt, Redis.hset key fields s)).

Definition redis_delete (key : string) : M unit :=
  redis_cmd (EvDel key) (fun s => (tt, Redis.del key s)).

Definition redis_keys : M (list string) :=
  redis_cmd EvKeys (fun s => (Redis.keys_session s, s)).

(** [time.time()], in milliseconds, and [int(time.time())]. *)
Definition time_time : M Z := fun _ w => (Val (clock w), w).

Definition int_time : M Z := fun _ w => (Val (clock w ÷ 1000)%Z, w).

Definition session_key_of (user_id : string) : string := "session:" +:+ user_id.

(** ** worker/worker.py *)

Module Worker.

Definition sanitize_k8s_name (text : string) : string :=
  let safe_text := Py.lower text in
  let safe_text := Py.re_sub_non_alnum safe_text in
  let safe_text := Py.strip_dash safe_text in
  if Py.truthy safe_text then safe_text else "anonymous".

Definition get_pod_manifest (user_id safe_id : string) : Manifest :=
  {| metadata_name := "session-" +:+ safe_id;
     label_user_id := safe_id;
     annotation_original_id := user_id;
     container_image := "httpd:2.4-alpine";
     container_port := 80;
     restart_policy := "Never" |}.

(** The loop of [wait_for_pod_ready] over the events the watch delivers
    within its 60 s; [ended] tells how the stream stopped. *)
Fixpoint first_addressable (events : list PodStatus) (ended : option Exn)
  : Reply (option string) :=
  match events with
  | [] => match ended with Some e => Raises e | None => Returns None end
  | pod :: rest =>
      if bool_decide (phase pod = "Running") && Py.truthy_opt (pod_ip pod)
      then Returns (pod_ip pod)
      else first_addressable rest ended
  end.

Definition wait_for_pod_ready (pod_name : string) : M (option string) :=
  ask (EvWatchPod pod_name) 0
    (fun env n => let '(events, ended) := k8s_watch env n pod_name in
                  first_addressable events ended).

Definition read_namespaced_pod (name : string) : M PodStatus :=
  ask (EvReadPod name) 0 (fun env n => k8s_read env n name).

Definition create_namespaced_pod (body : Manifest) : M unit :=
  ask (EvCreatePod body) 0 (fun env n => k8s_create env n body).

Definition basic_ack : M unit :=
  fun _ w => (Val tt, {| redis := redis w; clock := clock w;
                         calls := calls w; log := log w ++ [EvAck] |}).

(** [redis_conn.hset(key, mapping={"status": "ready", "ip": ip,
    "last_active": now})]: the client refuses a [None] value with a
    DataError before anything is sent. *)
Definition hset_ready (session_key : string) (ip : option string) : M unit :=
  now <- int_time ;;
  match ip with
  | Some addr =>
      hset session_key
        [("status", "ready"); ("ip", addr); ("last_active", Py.str_of_int now)]
  | None => raise RedisDataError
  end.

(** How the body of the outer [try] ends: by the early [return] or by
    reaching its end. *)
Inductive Flow := Returned | Fell.

(** [data.get("id")] on whatever [json.loads] produced. *)
Definition data_get_id (data : JValue) : M (option JValue) :=
  match data with
  | JObj members => ret (Json.get "id" members)
  | _ => raise AttributeError
  end.

Definition json_loads (body : option JValue) : M JValue :=
  match body with
  | Some v => ret v
  | None => raise JSONDecodeError
  end.

(** [f"session:{user_id}"] then [sanitize_k8s_name(user_id)], which calls
    [.lower()] and so needs a string. *)
Definition as_text (user_id : JValue) : M string :=
  match user_id with
  | JStr s => ret s
  | _ => raise AttributeError
  end.

(** The pod the Worker creates for an identity: [f"session-{safe_id}"]. *)
Definition pod_name_of (user_id : string) : string :=
  "session-" +:+ sanitize_k8s_name user_id.

(** Lines 73-96, from the computation of the names on. *)
Definition reconcile (user_id : string) : M unit :=
  let session_key := session_key_of user_id in
  let safe_id := sanitize_k8s_name user_id in
  let pod_name := pod_name_of user_id in
  try_except
    (pod <- read_namespaced_pod pod_name ;;
     if bool_decide (phase pod = "Running")
     then hset_ready session_key (pod_ip pod)
     else ret tt)
    (fun e =>
       match e with
       | ApiException status =>
           if (status =? 404)%Z
           then
             create_namespaced_pod (get_pod_manifest user_id safe_id) ;;
             ip <- wait_for_pod_ready pod_name ;;
             if Py.truthy_opt ip
             then hset_ready session_key ip
             else hset session_key [("status", "failed")]
           else ret tt
       | _ => raise e            (* not an ApiException: not caught here *)
       end).

Definition on_message_callback (body : option JValue) : M unit :=
  flow <- try_except
    (data <- json_loads body ;;
     user_id <- data_get_id data ;;
     if negb (from_option Json.truthy false user_id)
     then basic_ack ;; ret Returned
     else
       text <- as_text (default JNull user_id) ;;
       reconcile text ;;
       ret Fell)
    (fun e => ret Fell) ;;
  match flow with
  | Returned => ret tt
  | Fell => basic_ack
  end.

End Worker.

(** ** reaper/reaper.py *)

Module Reaper.

Definition IDLE_TIMEOUT_SECONDS : Z := 600.

(** Lines 66-72: the pod name the Reaper derives from a Redis key. *)
Definition pod_name_of_key (key : string) : string :=
  let user_id := Py.split_last ":" key in
  let safe_id := Py.strip_dash (Py.re_sub_non_alnum (Py.lower user_id)) in
  "session-" +:+ safe_id.

Definition delete_namespaced_pod (name : string) : M unit :=
  fun env w =>
    let reply := k8s_delete env (calls w) name in
    let w' := called (EvDeletePod name reply) 0 env w (redis w) in
    match reply with
    | Returns _ => (Val tt, w')
    | Raises e => (Exc e, w')
    end.

(** Lines 76-89: [true] when the loop body goes on to delete the key,
    [false] when it hits [continue]. *)
Definition delete_pod_step (pod_name : string) : M bool :=
  try_except
    (delete_namespaced_pod pod_name ;; ret true)
    (fun e =>
       match e with
       | ApiException status => if (status =? 404)%Z then ret true else ret false
       | _ => raise e
       end).

(** The body of [for key in session_keys], lines 54-96. *)
Definition reap_session (current_time : Z) (key : string) : M unit :=
  try_except
    (last_active_str <- hget key "last_active" ;;
     if negb (Py.truthy_opt last_active_str) then ret tt
     else
       match Py.int_of_str (default "" last_active_str) with
       | None => raise ValueError
       | Some last_active =>
           let idle_time := (current_time - last_active)%Z in
           if (idle_time >? IDLE_TIMEOUT_SECONDS)%Z
           then
             go_on <- delete_pod_step (pod_name_of_key key) ;;
             if go_on then redis_delete key else ret tt
           else ret tt
       end)
    (fun e => ret tt).

Fixpoint for_each (keys : list string) (body : string -> M unit) : M unit :=
  match keys with
  | [] => ret tt
  | key :: rest => body key ;; for_each rest body
  end.

(** One pass of the [while True] body, lines 43-101, without the sleeps;
    [false] is the "Main loop error" path that restarts the service. *)
Definition tick : M bool :=
  try_except
    (session_keys <- redis_keys ;;
     current_time <- int_time ;;
     for_each session_keys (reap_session current_time) ;;
     ret true)
    (fun e => ret false).

End Reaper.

(** ** gateway/gateway.py *)

Module Gateway.

(** [request.headers.get(name)]: names compare case-insensitively, the
    first match wins. *)
Definition header_get (name : string) (headers : list (string * string))
  : option string :=
  snd <$> find (fun kv => bool_decide (Py.lower kv.1 = Py.lower name)) headers.

(** [d[k] = v] on an insertion-ordered dict. *)
Fixpoint dict_set (k v : string) (d : list (string * string))
  : list (string * string) :=
  match d with
  | [] => [(k, v)]
  | (k', v') :: rest =>
      if bool_decide (k' = k) then (k, v) :: rest else (k', v') :: dict_set k v rest
  end.

Definition forwarded_headers (pod_ip : string) (request : Request)
  : list (string * string) :=
  let headers :=
    foldl (fun d kv => if bool_decide (Py.lower kv.1 = "host") then d
                       else dict_set kv.1 kv.2 d)
          [] (req_headers request) in
  dict_set "host" pod_ip headers.

Definition send (call : ProxyCall) : M Upstream :=
  ask (EvProxy call) 0 (fun env n => upstream env n call).

(** The request [proxy_request] builds for the pod at [pod_ip]. *)
Definition proxy_call (pod_ip : option string) (request : Request) : ProxyCall :=
  let target_url := "http://" +:+ Py.fmt_opt pod_ip +:+ ":80" +:+ req_path request in
  let headers := forwarded_headers (Py.fmt_opt pod_ip) request in
  {| pc_method := req_method request;
     pc_url := target_url;
     pc_headers := headers;
     pc_params := req_query request;
     pc_content := req_body request |}.

Definition proxy_request (pod_ip : option string) (request : Request) : M Response :=
  try_except
    (resp <- send (proxy_call pod_ip request) ;;
     ret (Streaming resp))
    (fun e =>
       match e with
       | HttpxRequestError => ret (Plain "Session pod not reachable." 503)
       | _ => raise e
       end).

Definition publish_creation_request (user_id : string) : M unit :=
  fun env w =>
    let ok := broker_up env (calls w) in
    let w' := called (EvPublish user_id ok) 0 env w (redis w) in
    if ok then (Val tt, w') else (Exc BrokerError, w').

(** [await asyncio.sleep(0.5)] *)
Definition sleep_500ms : M unit :=
  ask (EvSleep 500) 500 (fun _ _ => Returns tt).

(** [redis_conn.hset(session_key, "last_active", int(time.time()))] *)
Definition touch (session_key : string) : M unit :=
  now <- int_time ;;
  hset session_key [("last_active", Py.str_of_int now)].

(** The [while] loop of lines 136-149; [polls] bounds the iterations. *)
Fixpoint long_poll (polls : nat) (request : Request) (session_key : string)
    (timeout_start : Z) : M Response :=
  match polls with
  | O => diverge
  | S polls' =>
      now <- time_time ;;
      if (now - timeout_start <? 90000)%Z
      then
        sleep_500ms ;;
        new_status <- hget session_key "status" ;;
        if bool_decide (new_status = Some "ready")
        then
          pod_ip <- hget session_key "ip" ;;
          touch session_key ;;
          proxy_request pod_ip request
        else if bool_decide (new_status = Some "failed")
        then ret (Plain "Pod creation failed. Please try again." 500)
        else long_poll polls' request session_key timeout_start
      else ret (Plain "Gateway timeout: Pod creation is taking too long." 504)
  end.

(** What the two [except] clauses of the handler answer. *)
Definition exception_response (e : Exn) : Response :=
  match e with
  | RedisConnectionError =>
      Plain "Gateway service is down: Cannot connect to Redis." 503
  | _ => InternalError e
  end.

Definition on_exception (e : Exn) : M Response := ret (exception_response e).

(** Lines 116-174 of [handle_all_requests]: the dispatch on the session
    status, inside the handler's [try]; [again] is the call of the handler
    on the same request from inside itself (lines 162 and 168). *)
Definition dispatch (polls : nat) (request : Request) (user_id : string)
    (again : M Response) : M Response :=
  let session_key := session_key_of user_id in
  try_except
    (session_data <- hgetall session_key ;;
     let status := session_data !! "status" in
     if bool_decide (status = Some "ready")
     then
       let pod_ip := session_data !! "ip" in
       if negb (Py.truthy_opt pod_ip)
       then ret (Plain "Session 'ready' but no IP. Please retry." 500)
       else
         touch session_key ;;
         proxy_request pod_ip request
     else if bool_decide (status = Some "initiating")
     then
       timeout_start <- time_time ;;
       long_poll polls request session_key timeout_start
     else if bool_decide (status = None)
     then
       hset session_key [("status", "initiating")] ;;
       published <- try_except
         (publish_creation_request user_id ;; ret true)
         (fun e => ret false) ;;
       if published
       then again
       else
         redis_delete session_key ;;
         ret (Plain "Failed to queue pod creation." 500)
     else if bool_decide (status = Some "failed")
     then
       redis_delete session_key ;;
       again
     else ret JsonNull)
    on_exception.

(** The body of [handle_all_requests]. *)
Definition handler_body (polls : nat) (request : Request) (again : M Response)
  : M Response :=
  match header_get "X-User-ID" (req_headers request) with
  | Some user_id =>
      if negb (Py.truthy user_id)
      then ret (Plain "X-User-ID header is required." 400)
      else dispatch polls request user_id again
  | None => ret (Plain "X-User-ID header is required." 400)
  end.

(** [depth] is the number of nested entries of the handler the
    interpreter's recursion limit still allows, [polls] bounds the
    iterations of each long poll.  The code has no counter of its own: the
    call that exceeds the limit raises [RecursionError] at lines 162 or
    168, inside the caller's [try], and the caller's [except Exception]
    answers 500 with it; with no entry left the model gives that answer. *)
Fixpoint handle_all_requests (depth polls : nat) (request : Request) : M Response :=
  match depth with
  | O => ret (InternalError RecursionError)
  | S depth' =>
      handler_body polls request (handle_all_requests depth' polls request)
  end.

End Gateway.

(** ** Concrete environments used by the examples *)

Module Scenario.

(** Nobody else writes, every call is instantaneous and succeeds, no pod
    exists and the upstream refuses connections. *)
Definition quiet : Env :=
  {| interfere := fun _ s => s;
     redis_up := fun _ => true;
     elapse := fun _ => 0%N;
     broker_up := fun _ => true;
     upstream := fun _ _ => Raises HttpxRequestError;
     k8s_read := fun _ _ => Raises (ApiException 404);
     k8s_create := fun _ _ => Returns tt;
     k8s_watch := fun _ _ => ([], None);
     k8s_delete := fun _ _ => Returns tt |}.

Definition world (s : Store) (now_ms : Z) : World :=
  {| redis := s; clock := now_ms; calls := 0; log := [] |}.

Definition message (user_id : string) : option JValue :=
  Some (JObj [("id", JStr user_id)]).

Definition initiating (user_id : string) : Store :=
  {[ session_key_of user_id := {[ "status" := "initiating" ]} ]}.

(** The pod already exists and is Running, but reports an empty address. *)
Definition running_no_address : Env :=
  {| interfere := interfere quiet; redis_up := redis_up quiet;
     elapse := elapse quiet; broker_up := broker_up quiet;
     upstream := upstream quiet;
     k8s_read := fun _ _ => Returns {| phase := "Running"; pod_ip := Some "" |};
     k8s_create := k8s_create quiet; k8s_watch := k8s_watch quiet;
     k8s_delete := k8s_delete quiet |}.

(** No pod is found, creation conflicts (409), and a watch would report
    the pod Running at 10.1.2.3. *)
Definition create_conflict : Env :=
  {| interfere := interfere quiet; redis_up := redis_up quiet;
     elapse := elapse quiet; broker_up := broker_up quiet;
     upstream := upstream quiet;
     k8s_read := k8s_read quiet;
     k8s_create := fun _ _ => Raises (ApiException 409);
     k8s_watch := fun _ _ =>
       ([{| phase := "Running"; pod_ip := Some "10.1.2.3" |}], None);
     k8s_delete := k8s_delete quiet |}.

(** The cluster answers 500 to every pod deletion. *)
Definition delete_fails : Env :=
  {| interfere := interfere quiet; redis_up := redis_up quiet;
     elapse := elapse quiet; broker_up := broker_up quiet;
     upstream := upstream quiet;
     k8s_read := k8s_read quiet; k8s_create := k8s_create quiet;
     k8s_watch := k8s_watch quiet;
     k8s_delete := fun _ _ => Raises (ApiException 500) |}.

(** The broker refuses every message. *)
Definition broker_down : Env :=
  {| interfere := interfere quiet; redis_up := redis_up quiet;
     elapse := elapse quiet; broker_up := fun _ => false;
     upstream := upstream quiet;
     k8s_read := k8s_read quiet; k8s_create := k8s_create quiet;
     k8s_watch := k8s_watch quiet; k8s_delete := k8s_delete quiet |}.

(** The Worker's write of "ready" lands just before the Gateway's fifth
    call, and the pod answers 200. *)
Definition worker_finishes : Env :=
  {| interfere := fun n s =>
       if (n =? 4)%nat
       then Redis.hset "session:alice"
              [("status", "ready"); ("ip", "10.0.0.7"); ("last_active", "1700000001")] s
       else s;
     redis_up := redis_up quiet;
     elapse := elapse quiet; broker_up := broker_up quiet;
     upstream := fun _ _ =>
       Returns {| up_status := 200; up_headers := []; up_raw := "It works!" |};
     k8s_read := k8s_read quiet; k8s_create := k8s_create quiet;
     k8s_watch := k8s_watch quiet; k8s_delete := k8s_delete quiet |}.

(** Another process deletes alice's record before each Redis command. *)
Definition wiped : Env :=
  {| interfere := fun _ s => Redis.del "session:alice" s;
     redis_up := redis_up quiet;
     elapse := elapse quiet; broker_up := broker_up quiet;
     upstream := upstream quiet;
     k8s_read := k8s_read quiet; k8s_create := k8s_create quiet;
     k8s_watch := k8s_watch quiet; k8s_delete := k8s_delete quiet |}.

Definition failed (user_id : string) : Store :=
  {[ session_key_of user_id := {[ "status" := "failed" ]} ]}.

(** Any request of the user [user_id]. *)
Definition get (user_id path : string) : Request :=
  {| req_method := "GET"; req_path := path; req_query := "";
     req_headers := [("host", "gateway:8080"); ("x-user-id", user_id)];
     req_body := "" |}.

(** A ready session last touched at second [last_active]. *)
Definition ready (user_id addr : string) (last_active : Z) : Store :=
  {[ session_key_of user_id :=
       {[ "status" := "ready"; "ip" := addr;
          "last_active" := Py.str_of_int last_active ]} ]}.

End Scenario.

(** ** Vocabulary of the statements *)

(** The world after a bare acknowledgement: only the log grows. *)
Definition acked (w : World) : World :=
  {| redis := redis w; clock := clock w; calls := calls w; log := log w ++ [EvAck] |}.

(** The identity a delivered body carries, when it is one the Worker can
    act on: a JSON object whose "id" is a non-empty string. *)
Definition usable_id (body : option JValue) : option string :=
  match body with
  | Some (JObj members) =>
      match Json.get "id" members with
      | Some (JStr s) => if Py.truthy s then Some s else None
      | _ => None
      end
  | _ => None
  end.

(** The body is not valid JSON, or what it decodes to has no non-empty "id". *)
Definition lacks_id (body : option JValue) : Prop :=
  body = None ∨
  ∀ members v, body = Some (JObj members) → Json.get "id" members = Some v →
               Json.truthy v = false.

(** A sandbox-delete reply after which the Reaper goes on to delete the
    record: success, or the 404 it swallows. *)
Definition delete_tolerated (reply : Reply unit) : bool :=
  match reply with
  | Returns _ => true
  | Raises (ApiException status) => (status =? 404)%Z
  | Raises _ => false
  end.

(** Whether a [last_active] reading makes the session evictable at second
    [now]: it is an integer and more than 600 s have passed since.  An
    absent field, an empty one and one that [int] rejects never do. *)
Definition evictable (now : Z) (seen : option string) : bool :=
  match seen with
  | Some str =>
      match Py.int_of_str str with
      | Some last_active => (now - last_active >? 600)%Z
      | None => false
      end
  | None => false
  end.

(** The store as the next Redis command of the process finds it. *)
Definition observed (env : Env) (w : World) : Store :=
  interfere env (calls w) (redis w).

(** What the Reaper's [hget] returns at world [w]: [None] also when Redis
    is unreachable. *)
Definition last_active_seen (env : Env) (w : World) (key : string) : option string :=
  if redis_up env (calls w)
  then Redis.hget key "last_active" (interfere env (calls w) (redis w))
  else None.

(** The external calls one pass of the loop body makes for [key]. *)
Definition reap_events (env : Env) (w : World) (now : Z) (key : string) : list Event :=
  let reply := k8s_delete env (S (calls w)) (Reaper.pod_name_of_key key) in
  EvHGet key "last_active" ::
  (if evictable now (last_active_seen env w key)
   then EvDeletePod (Reaper.pod_name_of_key key) reply ::
        (if delete_tolerated reply then [EvDel key] else [])
   else []).

(** The world after the tick's [KEYS session:*]. *)
Definition after_keys (env : Env) (w : World) : World :=
  called EvKeys 0 env w (observed env w).

(** An eviction, from the world [w] that the read of [last_active] left: the
    sandbox is deleted, then the record, unless the sandbox deletion failed
    with anything but a 404. *)
Definition evicted (env : Env) (w : World) (key : string) : World :=
  let name := Reaper.pod_name_of_key key in
  let reply := k8s_delete env (calls w) name in
  let w1 := called (EvDeletePod name reply) 0 env w (redis w) in
  if delete_tolerated reply
  then called (EvDel key) 0 env w1
         (if redis_up env (calls w1) then Redis.del key (observed env w1)
          else observed env w1)
  else w1.

(** The pass of a tick over one record at second [now]: [last_active] is
    read, and the record is evicted exactly when that reading is evictable. *)
Definition scanned (env : Env) (now : Z) (w : World) (key : string) : World :=
  let read := called (EvHGet key "last_active") 0 env w (observed env w) in
  if evictable now (last_active_seen env w key) then evicted env read key else read.

(** The calls of a pass over [keys]: one run of [reap_events] per key. *)
Inductive pass_events (env : Env) (now : Z)
  : list string → list (list Event) → Prop :=
| pass_nil : pass_events env now [] []
| pass_cons w key keys runs :
    pass_events env now keys runs →
    pass_events env now (key :: keys) (reap_events env w now key :: runs).

(** In a run of calls, every deletion of a session key comes right after a
    call deleting that key's pod which succeeded or answered 404. *)
Definition record_deletes_follow_pod_deletes (events : list Event) : Prop :=
  ∀ pre key post, events = pre ++ EvDel key :: post →
    ∃ pre' reply,
      pre = pre' ++ [EvDeletePod (Reaper.pod_name_of_key key) reply] ∧
      delete_tolerated reply = true.

(** The world after the first two or three calls of a request that finds
    no status. *)
Definition after_hgetall (env : Env) (w : World) (key : string) : World :=
  called (EvHGetAll key) 0 env w (observed env w).

Definition after_initiating (env : Env) (w : World) (key : string) : World :=
  let w1 := after_hgetall env w key in
  called (EvHSet key [("status", "initiating")]) 0 env w1
    (Redis.hset key [("status", "initiating")] (observed env w1)).

Definition after_publish (env : Env) (w : World) (user_id : string) : World :=
  let w2 := after_initiating env w (session_key_of user_id) in
  called (EvPublish user_id (broker_up env (calls w2))) 0 env w2 (redis w2).

(** One round of the long poll: sleep 500 ms, then re-read the status. *)
Definition poll (key : string) : M (option string) :=
  Gateway.sleep_500ms ;; hget key "status".

(** What follows a poll that read "ready": read the address, touch, proxy. *)
Definition touch_and_proxy (key : string) (request : Request) : M Response :=
  pod_ip <- hget key "ip" ;;
  Gateway.touch key ;;
  Gateway.proxy_request pod_ip request.

Definition gateway_timeout : Response :=
  Plain "Gateway timeout: Pod creation is taking too long." 504.

Definition creation_failed : Response :=
  Plain "Pod creation failed. Please try again." 500.






(** The calls by which a request is counted: each entry of the handler
    reads the whole record once; the transition absent → initiating is the
    write of status "initiating"; failed → absent (and the roll-back after a
    failed publish) is the deletion of the key. *)
Definition is_entry (ev : Event) : bool :=
  match ev with EvHGetAll _ => true | _ => false end.

Definition is_initiation (ev : Event) : bool :=
  match ev with
  | EvHSet _ [("status", "initiating")] => true
  | _ => false
  end.

Definition is_deletion (ev : Event) : bool :=
  match ev with EvDel _ => true | _ => false end.

Definition quiet_event (ev : Event) : Prop :=
  is_entry ev = false ∧ is_initiation ev = false ∧ is_deletion ev = false.

Fixpoint tally (p : Event → bool) (events : list Event) : nat :=
  match events with
  | [] => 0
  | ev :: rest => (if p ev then 1 else 0) + tally p rest
  end.

(** What the handler's [except] clauses make of an outcome of its [try]. *)
Definition settle (out : Result Response) : Result Response :=
  match out with
  | Exc e => Val (Gateway.exception_response e)
  | r => r
  end.

Definition after_delete (env : Env) (w : World) (key : string) : World :=
  let w1 := after_hgetall env w key in
  called (EvDel key) 0 env w1 (Redis.del key (observed env w1)).

(** [m] answers from [w], having entered the handler at most [e] times,
    written "initiating" at most [i] times and deleted at most [d] times. *)
Definition answers (env : Env) (w : World) (m : M Response) (e i d : nat) : Prop :=
  ∃ r w' events,
    m env w = (Val r, w') ∧
    log w' = log w ++ events ∧
    tally is_entry events ≤ e ∧
    tally is_initiation events ≤ i ∧
    tally is_deletion events ≤ d.

(** [m] answers from [w] after exactly the calls [events]. *)
Definition answers_with (env : Env) (w : World) (m : M Response)
    (events : list Event) : Prop :=
  ∃ r w', m env w = (Val r, w') ∧ log w' = log w ++ events.

(** No other process writes to the store while the request runs. *)
Definition quiescent (env : Env) : Prop := ∀ n s, interfere env n s = s.

(** While the request runs the other processes delete no record and mark
    none failed; they may create records and write any other status, as
    the Worker does when it marks a session ready. *)
Definition undisturbed (env : Env) : Prop :=
  ∀ key n s,
    (Redis.hget key "status" (interfere env n s) = Some "failed" →
     Redis.hget key "status" s = Some "failed") ∧
    (Redis.hget key "status" (interfere env n s) = None →
     Redis.hget key "status" s = None).

(** ** Vocabulary of the further properties *)

(** A character allowed in a DNS label: [a-z0-9-]. *)
Definition label_char (c : ascii) : bool := Py.is_a_z_0_9 c || Py.is_dash c.

Fixpoint all_chars (p : ascii → bool) (s : string) : bool :=
  match s with
  | EmptyString => true
  | String c r => p c && all_chars p r
  end.

Definition starts_with_dash (s : string) : bool :=
  match s with String c _ => Py.is_dash c | EmptyString => false end.

Fixpoint ends_with_dash (s : string) : bool :=
  match s with
  | EmptyString => false
  | String c EmptyString => Py.is_dash c
  | String _ r => ends_with_dash r
  end.

(** Non-empty, made of [a-z0-9-] only, with no dash at either end. *)
Definition label_safe (s : string) : Prop :=
  s ≠ "" ∧ all_chars label_char s = true ∧
  starts_with_dash s = false ∧ ends_with_dash s = false.

(** An integer [str] prints and [int] reads back: at most
    [INT_MAX_STR_DIGITS] digits.  Every [int(time.time())] is one: a float
    stays below 2^1024. *)
Definition printable (z : Z) : Prop :=
  (Z.abs z < 10 ^ Z.of_N Py.INT_MAX_STR_DIGITS)%Z.

Fixpoint no_space (s : string) : bool :=
  match s with
  | EmptyString => true
  | String c r => negb (Py.is_space c) && no_space r
  end.

(** The calls the Worker may make while reconciling [user_id], the final
    acknowledgement apart: on that identity's pod and record only. *)
Definition reconcile_event (user_id : string) (ev : Event) : Prop :=
  match ev with
  | EvReadPod name | EvWatchPod name => name = Worker.pod_name_of user_id
  | EvCreatePod m =>
      m = Worker.get_pod_manifest user_id (Worker.sanitize_k8s_name user_id) ∧
      metadata_name m = Worker.pod_name_of user_id
  | EvHSet key fields =>
      key = session_key_of user_id ∧
      (fields = [("status", "failed")] ∨
       ∃ addr now, fields = [("status", "ready"); ("ip", addr); ("last_active", now)])
  | _ => False
  end.

(** The replies of the cluster to the Worker's first three calls. *)
Definition read_reply (env : Env) (w : World) (user_id : string) : Reply PodStatus :=
  k8s_read env (calls w) (Worker.pod_name_of user_id).

Definition create_reply (env : Env) (w : World) (user_id : string) : Reply unit :=
  k8s_create env (S (calls w))
    (Worker.get_pod_manifest user_id (Worker.sanitize_k8s_name user_id)).

Definition watch_reply (env : Env) (w : World) (user_id : string)
  : Reply (option string) :=
  let '(events, ended) := k8s_watch env (S (S (calls w))) (Worker.pod_name_of user_id) in
  Worker.first_addressable events ended.

(** A pod event that ends the watch: Running with a non-empty address. *)
Definition addressable (pod : PodStatus) : bool :=
  bool_decide (phase pod = "Running") && Py.truthy_opt (pod_ip pod).

(** The world after the touch of a request that found the session ready. *)
Definition after_touch (env : Env) (w : World) (key : string) : World :=
  let w1 := after_hgetall env w key in
  called (EvHSet key [("last_active", Py.str_of_int (clock w1 ÷ 1000))]) 0 env w1
    (Redis.hset key [("last_active", Py.str_of_int (clock w1 ÷ 1000))] (observed env w1)).

(** [d.get(k)] on an insertion-ordered dict. *)
Fixpoint dict_get (k : string) (d : list (string * string)) : option string :=
  match d with
  | [] => None
  | (k', v) :: rest => if bool_decide (k' = k) then Some v else dict_get k rest
  end.

(** The value a header list gives for the exact name [k]: that of its last
    occurrence. *)
Fixpoint last_value (k : string) (headers : list (string * string)) : option string :=
  match headers with
  | [] => None
  | (k', v) :: rest =>
      match last_value k rest with
      | Some v' => Some v'
      | None => if bool_decide (k' = k) then Some v else None
      end
  end.

(** The calls a Reaper tick may make. *)
Definition reaper_event (ev : Event) : Prop :=
  match ev with
  | EvKeys => True
  | EvHGet key field => field = "last_active"
  | EvDeletePod name _ => True
  | EvDel key => True
  | _ => False
  end.

(** A quiet, healthy system: nobody else writes, Redis answers, and the
    cluster deletes pods (or reports them gone). *)
Definition healthy (env : Env) : Prop :=
  quiescent env ∧
  (∀ n, redis_up env n = true) ∧
  (∀ n name, delete_tolerated (k8s_delete env n name) = true).

(** Whether a tick at second [now] evicts the record under [key] of [s]. *)
Definition idle_in (now : Z) (s : Store) (key : string) : bool :=
  evictable now (Redis.hget key "last_active" s).

(** ** Further concrete environments *)

Module Fixture.

(** [Scenario.quiet] with another answer of the cluster to a pod read. *)
Definition reading (reply : Reply PodStatus) : Env :=
  {| interfere := interfere Scenario.quiet; redis_up := redis_up Scenario.quiet;
     elapse := elapse Scenario.quiet; broker_up := broker_up Scenario.quiet;
     upstream := upstream Scenario.quiet;
     k8s_read := fun _ _ => reply;
     k8s_create := k8s_create Scenario.quiet; k8s_watch := k8s_watch Scenario.quiet;
     k8s_delete := k8s_delete Scenario.quiet |}.

(** [Scenario.quiet] with another outcome of the watch. *)
Definition watching (events : list PodStatus) (ended : option Exn) : Env :=
  {| interfere := interfere Scenario.quiet; redis_up := redis_up Scenario.quiet;
     elapse := elapse Scenario.quiet; broker_up := broker_up Scenario.quiet;
     upstream := upstream Scenario.quiet;
     k8s_read := k8s_read Scenario.quiet;
     k8s_create := k8s_create Scenario.quiet;
     k8s_watch := fun _ _ => (events, ended);
     k8s_delete := k8s_delete Scenario.quiet |}.

(** [Scenario.quiet] with another answer of the pod, and Redis reachable
    for the first [reachable] calls only. *)
Definition serving (reply : Reply Upstream) (reachable : nat) : Env :=
  {| interfere := interfere Scenario.quiet;
     redis_up := fun n => bool_decide (n < reachable);
     elapse := elapse Scenario.quiet; broker_up := broker_up Scenario.quiet;
     upstream := fun _ _ => reply;
     k8s_read := k8s_read Scenario.quiet;
     k8s_create := k8s_create Scenario.quiet; k8s_watch := k8s_watch Scenario.quiet;
     k8s_delete := k8s_delete Scenario.quiet |}.

Definition pending : PodStatus := {| phase := "Pending"; pod_ip := None |}.

Definition running (addr : string) : PodStatus :=
  {| phase := "Running"; pod_ip := Some addr |}.

Definition page : Upstream :=
  {| up_status := 200; up_headers := []; up_raw := "It works!" |}.

(** A record with the given status and nothing else. *)
Definition only_status (user_id status : string) : Store :=
  {[ session_key_of user_id := {[ "status" := status ]} ]}.

(** A record whose [last_active] is the given text. *)
Definition last_active_text (user_id text : string) : Store :=
  {[ session_key_of user_id := {[ "status" := "ready"; "last_active" := text ]} ]}.

(** A request that carries no identity. *)
Definition unsigned_get : Request :=
  {| req_method := "GET"; req_path := "/"; req_query := "";
     req_headers := [("host", "gateway:8080")]; req_body := "" |}.

End Fixture.

(** ** Checks of the text primitives *)

Example lower_mixed : Py.lower "Alice_01@Corp" = "alice_01@corp".
Proof. reflexivity. Qed.

Example split_last_two : Py.split_last ":" "session:a:b" = "b".
Proof. reflexivity. Qed.

Example strip_dash_both : Py.strip_dash "--a-b--" = "a-b".
Proof. reflexivity. Qed.

Example int_of_str_ok : Py.int_of_str " 1_700 " = Some 1700%Z.
Proof. reflexivity. Qed.

Example int_of_str_bad : Py.int_of_str "12a" = None.
Proof. reflexivity. Qed.

Example str_of_int_ok : Py.str_of_int 1700 = "1700".
Proof. reflexivity. Qed.

(** [int] does not strip the separators U+001C..U+001F, but does strip
    U+00A0; a sign may not be followed by a space. *)
Example int_of_str_separator :
  Py.int_of_str (String (ascii_of_nat 31) "12") = None.
Proof. reflexivity. Qed.

Example int_of_str_padded :
  Py.int_of_str (String (ascii_of_nat 160) "+12 ") = Some 12%Z.
Proof. reflexivity. Qed.

Example int_of_str_signed_space : Py.int_of_str "- 12" = None.
Proof. reflexivity. Qed.

(** ** Sandbox names (Worker against Reaper) *)

(** C3 (the claim holds for the documented intent, the code departs from it):
    the Worker and the Reaper are meant to derive the same sandbox name from
    an identity, but the Reaper's inline copy of the sanitization has no
    "anonymous" fallback and reads the identity back from the key with
    [split(":")[-1]].  For the identity "___" the Worker names the pod
    "session-anonymous" and the Reaper looks for "session-"; for "a:b" the
    Worker names it "session-a-b" and the Reaper looks for "session-b". *)
Theorem reaper_name_differs_from_worker_name :
  Worker.pod_name_of "___" = "session-anonymous" ∧
  Reaper.pod_name_of_key (session_key_of "___") = "session-" ∧
  Worker.pod_name_of "a:b" = "session-a-b" ∧
  Reaper.pod_name_of_key (session_key_of "a:b") = "session-b".
Proof. repeat split; reflexivity. Qed.

Lemma split_last_without_sep sep s :
  Py.contains sep s = false → Py.split_last sep s = s.
Proof.
  destruct s as [|c r]; [done|]. unfold Py.contains. simpl.
  intros H. apply orb_false_iff in H as [Hc Hr].
  unfold Py.contains. by rewrite Hr, Hc.
Qed.

Lemma split_last_cons sep c r :
  Py.contains sep r = true → Py.split_last sep (String c r) = Py.split_last sep r.
Proof. intros H. cbn [Py.split_last]. by rewrite H. Qed.

Lemma user_of_session_key user_id :
  Py.contains ":" user_id = false →
  Py.split_last ":" (session_key_of user_id) = user_id.
Proof.
  intros H.
  change (session_key_of user_id)
    with (String "s" (String "e" (String "s" (String "s" (String "i"
           (String "o" (String "n" (String ":" user_id)))))))).
  do 7 (rewrite split_last_cons by reflexivity).
  cbn [Py.split_last]. by rewrite H.
Qed.

(** X6: where the two computations do agree: for an identity that has no
    colon and keeps at least one letter or digit, the Reaper derives from
    the session key the pod name the Worker created. *)
Lemma names_agree_on_plain_identities user_id :
  Py.contains ":" user_id = false →
  Py.truthy (Py.strip_dash (Py.re_sub_non_alnum (Py.lower user_id))) = true →
  Reaper.pod_name_of_key (session_key_of user_id) = Worker.pod_name_of user_id.
Proof.
  intros Hcolon Hkept.
  unfold Reaper.pod_name_of_key, Worker.pod_name_of, Worker.sanitize_k8s_name.
  by rewrite user_of_session_key, Hkept.
Qed.

Lemma names_agree_on_plain_identities_witness :
  Reaper.pod_name_of_key (session_key_of "Alice_01") = Worker.pod_name_of "Alice_01".
Proof. exact (names_agree_on_plain_identities "Alice_01" eq_refl eq_refl). Defined.

(** ** The Worker *)

(** The creation path only ever reports a non-empty address. *)
Lemma first_addressable_is_nonempty events ended ip :
  Worker.first_addressable events ended = Returns (Some ip) →
  Py.truthy ip = true.
Proof.
  induction events as [|pod events IH]; simpl.
  - by destruct ended.
  - destruct (bool_decide _ && Py.truthy_opt (pod_ip pod)) eqn:Hok; [|done].
    intros [= Hip]. apply andb_true_iff in Hok as [_ Hok].
    by rewrite Hip in Hok.
Qed.

(** C2 (the claim holds for the documented intent, the code departs from
    it): when the pod already exists in phase Running the Worker writes
    status "ready" together with whatever address the pod reports, without
    the non-empty test that the creation path applies; with an empty address
    the record becomes ready with an empty [ip]. *)
Theorem worker_writes_ready_with_empty_address :
  let w' := (Worker.on_message_callback (Scenario.message "alice")
               Scenario.running_no_address
               (Scenario.world (Scenario.initiating "alice") 1700000000000)).2 in
  Redis.hget "session:alice" "status" (redis w') = Some "ready" ∧
  Redis.hget "session:alice" "ip" (redis w') = Some "" ∧
  log w' = [EvReadPod "session-alice";
            EvHSet "session:alice"
              [("status", "ready"); ("ip", ""); ("last_active", "1700000000")];
            EvAck].
Proof. vm_compute. repeat split; reflexivity. Qed.

Lemma callback_without_usable_id env w body :
  usable_id body = None →
  Worker.on_message_callback body env w = (Val tt, acked w).
Proof.
  intros Hid.
  destruct body as [v|]; [|reflexivity].
  destruct v as [|b|z|s|items|members]; try reflexivity.
  unfold usable_id in Hid.
  unfold Worker.on_message_callback, bind, try_except; simpl.
  unfold bind, ret; simpl.
  destruct (Json.get "id" members) as [v|] eqn:Hget; simpl; [|reflexivity].
  destruct v as [|b|z|s|items|ms]; simpl;
    try reflexivity;
    try (match goal with |- context [negb ?c] => destruct c end; reflexivity).
  destruct (Py.truthy s); [discriminate|reflexivity].
Qed.

Lemma lacks_id_not_usable body : lacks_id body → usable_id body = None.
Proof.
  intros [->|H]; [reflexivity|].
  destruct body as [v|]; [|reflexivity].
  destruct v as [|b|z|s|items|members]; try reflexivity.
  simpl. destruct (Json.get "id" members) as [v|] eqn:Hget; [|reflexivity].
  specialize (H members v eq_refl Hget).
  destruct v; try reflexivity. simpl in H. by rewrite H.
Qed.

(** C10: a delivered message whose body is not valid JSON, or whose decoded
    value has no non-empty "id", is acknowledged and nothing else happens:
    the callback returns, the store is untouched, no Redis command and no
    cluster call is issued (the log grows by the acknowledgement alone). *)
Theorem malformed_message_is_only_acked env w body :
  lacks_id body →
  Worker.on_message_callback body env w = (Val tt, acked w) ∧
  redis (acked w) = redis w ∧
  log (acked w) = log w ++ [EvAck].
Proof.
  intros H. split; [|done].
  apply callback_without_usable_id, lacks_id_not_usable, H.
Qed.

Lemma malformed_message_is_only_acked_witness :
  lacks_id (Some (JObj [("user", JStr "alice"); ("id", JStr "")])) ∧
  Worker.on_message_callback (Some (JObj [("user", JStr "alice"); ("id", JStr "")]))
    Scenario.quiet (Scenario.world ∅ 0)
  = (Val tt, acked (Scenario.world ∅ 0)).
Proof.
  assert (H : lacks_id (Some (JObj [("user", JStr "alice"); ("id", JStr "")]))).
  { right. intros members v Hb Hg. injection Hb as <-.
    vm_compute in Hg. injection Hg as <-. reflexivity. }
  split; [exact H|].
  exact (proj1 (malformed_message_is_only_acked Scenario.quiet (Scenario.world ∅ 0) _ H)).
Defined.

(** C5, as stated, fails: the pod is absent on read, creation answers 409
    "already exists", and a watch would have reported the pod Running at
    10.1.2.3.  The Worker neither watches nor writes: the record is still
    "initiating" after the message is acknowledged. *)
Lemma already_exists_is_not_treated_as_success :
  let w' := (Worker.on_message_callback (Scenario.message "alice")
               Scenario.create_conflict
               (Scenario.world (Scenario.initiating "alice") 1700000000000)).2 in
  Redis.hget "session:alice" "status" (redis w') = Some "initiating" ∧
  ¬ (EvWatchPod "session-alice" ∈ log w' ∧
     (Redis.hget "session:alice" "status" (redis w') = Some "ready" ∨
      Redis.hget "session:alice" "status" (redis w') = Some "failed")).
Proof.
  vm_compute. split; [reflexivity|].
  intros [_ [H|H]]; discriminate H.
Qed.

(** C5, amended: when the pod is absent on read and [create_namespaced_pod]
    raises, with 409 "already exists" as with any other error, the Worker
    abandons the attempt: it does not watch the pod, issues no Redis command
    (the session record stays as it was, "initiating" included) and
    acknowledges the message. *)
Theorem create_failure_aborts_attempt env w members user_id e :
  Json.get "id" members = Some (JStr user_id) →
  Py.truthy user_id = true →
  k8s_read env (calls w) (Worker.pod_name_of user_id) = Raises (ApiException 404) →
  k8s_create env (S (calls w))
    (Worker.get_pod_manifest user_id (Worker.sanitize_k8s_name user_id)) = Raises e →
  ∃ w', Worker.on_message_callback (Some (JObj members)) env w = (Val tt, w') ∧
        redis w' = redis w ∧
        log w' = log w ++
                  ([EvReadPod (Worker.pod_name_of user_id);
                   EvCreatePod (Worker.get_pod_manifest user_id
                                  (Worker.sanitize_k8s_name user_id));
                   EvAck]).
Proof.
  intros Hid Hne Hread Hcreate.
  unfold Worker.on_message_callback, bind, try_except; simpl.
  unfold bind, ret; simpl. rewrite Hid; simpl. rewrite Hne; simpl.
  unfold Worker.reconcile, try_except, bind, Worker.read_namespaced_pod, ask.
  rewrite Hread; simpl.
  unfold bind, Worker.create_namespaced_pod, ask; simpl.
  rewrite Hcreate; simpl.
  eexists; split; [reflexivity|]. simpl. split; [reflexivity|].
  by rewrite <- !app_assoc.
Qed.

Lemma create_failure_aborts_attempt_witness :
  ∃ w', Worker.on_message_callback (Scenario.message "alice")
          Scenario.create_conflict
          (Scenario.world (Scenario.initiating "alice") 1700000000000) = (Val tt, w') ∧
        redis w' = Scenario.initiating "alice" ∧
        log w' = [EvReadPod "session-alice";
                  EvCreatePod (Worker.get_pod_manifest "alice" "alice");
                  EvAck].
Proof.
  exact (create_failure_aborts_attempt Scenario.create_conflict
           (Scenario.world (Scenario.initiating "alice") 1700000000000)
           [("id", JStr "alice")] "alice" (ApiException 409)
           eq_refl eq_refl eq_refl eq_refl).
Defined.

(** ** The Reaper *)

(** Membership in an explicit list of calls. *)
Ltac listed :=
  repeat first [apply list_elem_of_here | apply list_elem_of_further].

Ltac unlisted H :=
  repeat (apply elem_of_cons in H as [H|H]; [discriminate H|]);
  by apply elem_of_nil in H.

Lemma int_of_str_empty : Py.int_of_str "" = None.
Proof. reflexivity. Qed.

Lemma reap_session_run env w now key :
  ∃ w', Reaper.reap_session now key env w = (Val tt, w') ∧
        log w' = log w ++ reap_events env w now key ∧
        (EvDel key ∉ reap_events env w now key →
         redis w' = interfere env (calls w) (redis w)).
Proof.
  unfold reap_events, last_active_seen, evictable.
  unfold Reaper.reap_session, try_except, bind, hget, redis_cmd; simpl.
  destruct (redis_up env (calls w)) eqn:Hup; simpl;
    [|eexists; split; [reflexivity|]; simpl; split; [done|done]].
  destruct (Redis.hget key "last_active" _) as [str|] eqn:Hseen; simpl;
    [|eexists; split; [reflexivity|]; simpl; split; [done|done]].
  destruct (Py.truthy str) eqn:Hstr; simpl.
  2:{ destruct str; [|discriminate]. rewrite int_of_str_empty.
      eexists; split; [reflexivity|]; simpl; split; done. }
  destruct (Py.int_of_str str) as [last_active|]; simpl;
    [|eexists; split; [reflexivity|]; simpl; split; done].
  unfold Reaper.IDLE_TIMEOUT_SECONDS.
  destruct (now - last_active >? 600)%Z; simpl;
    [|eexists; split; [reflexivity|]; simpl; split; done].
  unfold Reaper.delete_pod_step, try_except, bind, Reaper.delete_namespaced_pod; simpl.
  destruct (k8s_delete env (S (calls w)) _) as [[]|e]; simpl.
  - unfold redis_delete, redis_cmd; simpl.
    destruct (redis_up env (S (S (calls w)))); simpl;
      (eexists; split; [reflexivity|]; simpl; split;
       [by rewrite <- !app_assoc | intros H; exfalso; apply H; listed]).
  - destruct e as [| |status| | | | | | |]; simpl;
      try (eexists; split; [reflexivity|]; simpl; split;
           [by rewrite <- !app_assoc | done]).
    destruct (status =? 404)%Z; simpl.
    + unfold redis_delete, redis_cmd; simpl.
      destruct (redis_up env (S (S (calls w)))); simpl;
        (eexists; split; [reflexivity|]; simpl; split;
         [by rewrite <- !app_assoc | intros H; exfalso; apply H; listed]).
    + eexists; split; [reflexivity|]; simpl; split;
        [by rewrite <- !app_assoc | done].
Qed.

Lemma follow_nil : record_deletes_follow_pod_deletes [].
Proof. intros pre key post H. by destruct pre. Qed.

Lemma follow_app l1 l2 :
  record_deletes_follow_pod_deletes l1 →
  record_deletes_follow_pod_deletes l2 →
  record_deletes_follow_pod_deletes (l1 ++ l2).
Proof.
  intros H1 H2 pre key post Heq.
  apply app_eq_app in Heq as [l [[-> Hl]|[-> Hl]]].
  - destruct l as [|ev l].
    + simpl in Hl. destruct (H2 [] key post) as (pre' & reply & Hpre & _); [done|].
      by destruct pre'.
    + simpl in Hl. injection Hl as <- ->.
      exact (H1 pre key l eq_refl).
  - destruct (H2 l key post Hl) as (pre' & reply & -> & Hok).
    exists (l1 ++ pre'), reply. by rewrite app_assoc.
Qed.

Lemma follow_reap_events env w now key :
  record_deletes_follow_pod_deletes (reap_events env w now key).
Proof.
  unfold reap_events.
  destruct (evictable _ _); [|by intros [|? [|? ?]] k post H].
  destruct (delete_tolerated _) eqn:Hok; [|by intros [|? [|? [|? ?]]] k post H].
  intros [|? [|? [|? [|? ?]]]] k post H; try done.
  injection H as <- <- <- <-.
  by exists [EvHGet key "last_active"], (k8s_delete env (S (calls w)) (Reaper.pod_name_of_key key)).
Qed.

Lemma for_each_run env now keys :
  ∀ w, ∃ w' events,
    Reaper.for_each keys (Reaper.reap_session now) env w = (Val tt, w') ∧
    log w' = log w ++ events ∧
    record_deletes_follow_pod_deletes events.
Proof.
  induction keys as [|key keys IH]; intros w.
  - exists w, []. simpl. rewrite app_nil_r. eauto using follow_nil.
  - destruct (reap_session_run env w now key) as (w1 & Hrun & Hlog & _).
    destruct (IH w1) as (w2 & events & Hrest & Hlog2 & Hfollow).
    exists w2, (reap_events env w now key ++ events).
    cbn [Reaper.for_each]. unfold bind. rewrite Hrun, Hrest, Hlog2, Hlog, app_assoc.
    eauto using follow_app, follow_reap_events.
Qed.

Lemma tick_run env w :
  ∃ ok w' events,
    Reaper.tick env w = (Val ok, w') ∧
    log w' = log w ++ events ∧
    record_deletes_follow_pod_deletes events.
Proof.
  unfold Reaper.tick, try_except, bind, redis_keys, redis_cmd.
  destruct (redis_up env (calls w)); cbn [fst snd].
  - unfold int_time.
    match goal with
    | |- context [Reaper.for_each ?ks (Reaper.reap_session ?now) env ?w1] =>
        destruct (for_each_run env now ks w1) as (w2 & events & Hrun & Hlog & Hfollow);
        rewrite Hrun
    end.
    exists true, w2, (EvKeys :: events). cbn [ret].
    split; [reflexivity|]. split.
    + rewrite Hlog. cbn [log called]. by rewrite <- app_assoc.
    + apply (follow_app [EvKeys]); [by intros [|? [|? ?]] k post H | done].
  - eexists false, _, [EvKeys]. cbn [ret].
    split; [reflexivity|]. split; [reflexivity|].
    by intros [|? [|? ?]] k post H.
Qed.

Lemma reap_session_scans env w now key :
  Reaper.reap_session now key env w = (Val tt, scanned env now w key).
Proof.
  unfold scanned, evicted, last_active_seen, evictable, observed.
  unfold Reaper.reap_session, try_except, bind, hget, redis_cmd; simpl.
  destruct (redis_up env (calls w)) eqn:Hup; simpl; [|reflexivity].
  destruct (Redis.hget key "last_active" _) as [str|] eqn:Hseen; simpl; [|reflexivity].
  destruct (Py.truthy str) eqn:Hstr; simpl.
  2:{ destruct str; [|discriminate]. by rewrite int_of_str_empty. }
  destruct (Py.int_of_str str) as [last_active|]; simpl; [|reflexivity].
  unfold Reaper.IDLE_TIMEOUT_SECONDS.
  destruct (now - last_active >? 600)%Z; simpl; [|reflexivity].
  unfold Reaper.delete_pod_step, try_except, bind, Reaper.delete_namespaced_pod; simpl.
  destruct (k8s_delete env (S (calls w)) _) as [[]|e]; simpl.
  - unfold redis_delete, redis_cmd; simpl.
    by destruct (redis_up env (S (S (calls w)))).
  - destruct e as [| |status| | | | | | |]; simpl; try reflexivity.
    destruct (status =? 404)%Z; simpl; [|reflexivity].
    unfold redis_delete, redis_cmd; simpl.
    by destruct (redis_up env (S (S (calls w)))).
Qed.

Lemma for_each_scans env now keys :
  ∀ w, Reaper.for_each keys (Reaper.reap_session now) env w
       = (Val tt, foldl (scanned env now) w keys).
Proof.
  induction keys as [|key keys IH]; intros w; [reflexivity|].
  cbn [Reaper.for_each foldl]. unfold bind. by rewrite reap_session_scans, IH.
Qed.

Lemma tick_scans env w :
  Reaper.tick env w =
    if redis_up env (calls w)
    then (Val true,
          foldl (scanned env (clock (after_keys env w) ÷ 1000)) (after_keys env w)
            (Redis.keys_session (observed env w)))
    else (Val false, after_keys env w).
Proof.
  unfold Reaper.tick, try_except, bind, redis_keys, redis_cmd, after_keys, observed.
  destruct (redis_up env (calls w)); cbn [fst snd]; [|reflexivity].
  unfold int_time. by rewrite for_each_scans.
Qed.

(** C7 (the claim holds for the documented intent, the code departs from
    it): the record of the identity "a:b" has been idle for 700 s.  The
    tick deletes the pod "session-b", the name it derives from what follows
    the last colon of the key, and then deletes the record; the sandbox of
    that identity, the pod the Worker created, is "session-a-b", and no
    call of the tick concerns it. *)
Theorem reaper_deletes_record_after_deleting_another_pod :
  let w := Scenario.world (Scenario.ready "a:b" "10.0.0.9" 1000) 1700000 in
  let out := Reaper.tick Scenario.quiet w in
  Worker.pod_name_of "a:b" = "session-a-b" ∧
  log out.2 = [EvKeys; EvHGet "session:a:b" "last_active";
               EvDeletePod "session-b" (Returns tt); EvDel "session:a:b"] ∧
  redis w !! "session:a:b" ≠ None ∧
  redis out.2 !! "session:a:b" = None.
Proof.
  cbv zeta. split; [|split; [|split]].
  - vm_compute. reflexivity.
  - vm_compute. reflexivity.
  - vm_compute. discriminate.
  - vm_compute. reflexivity.
Qed.

Example reap_idle_session :
  log (Reaper.tick Scenario.quiet
         (Scenario.world (Scenario.ready "bob" "10.0.0.9" 1000) 1700000)).2
  = [EvKeys; EvHGet "session:bob" "last_active";
     EvDeletePod "session-bob" (Returns tt); EvDel "session:bob"].
Proof. vm_compute. reflexivity. Qed.

Example reap_keeps_session_when_pod_delete_fails :
  log (Reaper.tick Scenario.delete_fails
         (Scenario.world (Scenario.ready "bob" "10.0.0.9" 1000) 1700000)).2
  = [EvKeys; EvHGet "session:bob" "last_active";
     EvDeletePod "session-bob" (Raises (ApiException 500))].
Proof. vm_compute. reflexivity. Qed.


(** ** The Gateway *)

(** C1, as stated, fails: alice's session is ready at 10.0.0.7 and was last
    active at second 100; her request arrives at second 200 and the pod
    refuses the connection.  The answer is 503, but [last_active] now
    holds 200. *)
Lemma upstream_failure_still_touches_record :
  let w := Scenario.world (Scenario.ready "alice" "10.0.0.7" 100) 200000 in
  let out := Gateway.handle_all_requests 1 0 (Scenario.get "alice" "/x") Scenario.quiet w in
  out.1 = Val (Plain "Session pod not reachable." 503) ∧
  Redis.hget "session:alice" "last_active" (redis w) = Some "100" ∧
  Redis.hget "session:alice" "last_active" (redis out.2) = Some "200" ∧
  Redis.hget "session:alice" "last_active" (redis out.2)
    ≠ Redis.hget "session:alice" "last_active" (redis w).
Proof.
  cbv zeta. split; [|split; [|split]].
  - vm_compute. reflexivity.
  - vm_compute. reflexivity.
  - vm_compute. reflexivity.
  - vm_compute. intros H. discriminate H.
Qed.

(** *** Stepping lemmas for the Redis commands *)

Lemma hgetall_up env w key :
  redis_up env (calls w) = true →
  hgetall key env w =
    (Val (Redis.hgetall key (interfere env (calls w) (redis w))),
     called (EvHGetAll key) 0 env w (interfere env (calls w) (redis w))).
Proof. intros H. unfold hgetall, redis_cmd. by rewrite H. Qed.

Lemma hget_up env w key field :
  redis_up env (calls w) = true →
  hget key field env w =
    (Val (Redis.hget key field (interfere env (calls w) (redis w))),
     called (EvHGet key field) 0 env w (interfere env (calls w) (redis w))).
Proof. intros H. unfold hget, redis_cmd. by rewrite H. Qed.

Lemma hset_up env w key fields :
  redis_up env (calls w) = true →
  hset key fields env w =
    (Val tt,
     called (EvHSet key fields) 0 env w
       (Redis.hset key fields (interfere env (calls w) (redis w)))).
Proof. intros H. unfold hset, redis_cmd. by rewrite H. Qed.

Lemma redis_delete_up env w key :
  redis_up env (calls w) = true →
  redis_delete key env w =
    (Val tt,
     called (EvDel key) 0 env w (Redis.del key (interfere env (calls w) (redis w)))).
Proof. intros H. unfold redis_delete, redis_cmd. by rewrite H. Qed.

Lemma redis_cmd_down {A} env w ev (f : Store → A * Store) :
  redis_up env (calls w) = false →
  redis_cmd ev f env w =
    (Exc RedisConnectionError, called ev 0 env w (interfere env (calls w) (redis w))).
Proof. intros H. unfold redis_cmd. by rewrite H. Qed.

Lemma handler_body_of_user polls request again user_id :
  Gateway.header_get "X-User-ID" (req_headers request) = Some user_id →
  Py.truthy user_id = true →
  Gateway.handler_body polls request again
  = Gateway.dispatch polls request user_id again.
Proof. intros Hhdr Hid. unfold Gateway.handler_body. by rewrite Hhdr, Hid. Qed.

Lemma hget_hset_same key field v s :
  Redis.hget key field (Redis.hset key [(field, v)] s) = Some v.
Proof.
  unfold Redis.hget, Redis.hset, Redis.hgetall. simpl.
  rewrite lookup_insert_eq. simpl. apply lookup_insert_eq.
Qed.

Lemma hget_hset_other key field other v s :
  field ≠ other →
  Redis.hget key other (Redis.hset key [(field, v)] s) = Redis.hget key other s.
Proof.
  intros Hne. unfold Redis.hget, Redis.hset, Redis.hgetall. simpl.
  rewrite lookup_insert_eq. simpl. by rewrite lookup_insert_ne.
Qed.

(** C1, amended: when the session is observed ready with a non-empty
    address and the proxied call fails with a transport error, the Gateway
    answers 503; by then it has written [last_active] (the touch comes
    before the proxy call) and nothing else: [status] and the address are
    what the store held when the touch ran. *)
Theorem upstream_failure_answers_503 env w request depth polls user_id addr :
  Gateway.header_get "X-User-ID" (req_headers request) = Some user_id →
  Py.truthy user_id = true →
  redis_up env (calls w) = true →
  redis_up env (S (calls w)) = true →
  Redis.hget (session_key_of user_id) "status" (observed env w) = Some "ready" →
  Redis.hget (session_key_of user_id) "ip" (observed env w) = Some addr →
  Py.truthy addr = true →
  upstream env (S (S (calls w))) (Gateway.proxy_call (Some addr) request)
    = Raises HttpxRequestError →
  ∃ w' touched now,
    Gateway.handle_all_requests (S depth) polls request env w
      = (Val (Plain "Session pod not reachable." 503), w') ∧
    touched = interfere env (S (calls w)) (observed env w) ∧
    now = Py.str_of_int ((clock w + 0 + Z.of_N (elapse env (calls w))) ÷ 1000) ∧
    redis w' = Redis.hset (session_key_of user_id) [("last_active", now)] touched ∧
    Redis.hget (session_key_of user_id) "status" (redis w')
      = Redis.hget (session_key_of user_id) "status" touched ∧
    Redis.hget (session_key_of user_id) "ip" (redis w')
      = Redis.hget (session_key_of user_id) "ip" touched ∧
    Redis.hget (session_key_of user_id) "last_active" (redis w') = Some now.
Proof.
  intros Hhdr Hid Hup0 Hup1 Hst Hip Haddr Hfail.
  cbn [Gateway.handle_all_requests].
  rewrite (handler_body_of_user _ _ _ user_id) by done.
  unfold Gateway.dispatch.
  unfold try_except at 1. unfold bind at 1. rewrite hgetall_up by done.
  unfold observed, Redis.hget in *.
  rewrite Hst, Hip. rewrite bool_decide_eq_true_2 by done.
  cbn [Py.truthy_opt]. rewrite Haddr. cbn [negb].
  unfold Gateway.touch. unfold bind at 1. unfold bind at 1. unfold int_time.
  rewrite hset_up by done. cbn [calls called clock redis].
  unfold Gateway.proxy_request, try_except, bind, Gateway.send, ask. cbn [calls called].
  rewrite Hfail. cbn [ret].
  eexists _, _, _. split; [reflexivity|]. cbn [redis called].
  split; [reflexivity|]. split; [reflexivity|]. split; [reflexivity|].
  split; [by apply hget_hset_other|].
  split; [by apply hget_hset_other|].
  apply hget_hset_same.
Qed.

Lemma upstream_failure_answers_503_witness :
  ∃ w' touched now,
    Gateway.handle_all_requests 1 0 (Scenario.get "alice" "/x") Scenario.quiet
      (Scenario.world (Scenario.ready "alice" "10.0.0.7" 100) 200000)
      = (Val (Plain "Session pod not reachable." 503), w') ∧
    touched = Scenario.ready "alice" "10.0.0.7" 100 ∧
    now = "200" ∧
    redis w' = Redis.hset "session:alice" [("last_active", now)] touched ∧
    Redis.hget "session:alice" "status" (redis w')
      = Redis.hget "session:alice" "status" touched ∧
    Redis.hget "session:alice" "ip" (redis w')
      = Redis.hget "session:alice" "ip" touched ∧
    Redis.hget "session:alice" "last_active" (redis w') = Some now.
Proof.
  exact (upstream_failure_answers_503 Scenario.quiet
           (Scenario.world (Scenario.ready "alice" "10.0.0.7" 100) 200000)
           (Scenario.get "alice" "/x") 0 0 "alice" "10.0.0.7"
           eq_refl eq_refl eq_refl eq_refl eq_refl eq_refl eq_refl eq_refl).
Defined.

Lemma on_exception_returns {A} (m : M A) (h : Exn → M A) env w :
  (∀ e env w, ∃ a, h e env w = (Val a, w)) →
  ∀ e, (try_except m h env w).1 ≠ Exc e.
Proof.
  intros Hh e. unfold try_except.
  destruct (m env w) as [[a|e'|] w']; simpl; try done.
  destruct (Hh e' env w') as [a ->]. done.
Qed.

Lemma handler_never_raises depth polls request env w e :
  (Gateway.handle_all_requests depth polls request env w).1 ≠ Exc e.
Proof.
  destruct depth as [|depth]; [done|].
  cbn [Gateway.handle_all_requests]. unfold Gateway.handler_body.
  destruct (Gateway.header_get _ _) as [user_id|]; [|done].
  destruct (negb _); [done|].
  apply on_exception_returns. intros e' env' w'.
  eexists; reflexivity.
Qed.

Lemma try_except_returns {A} (m : M A) (h : Exn → M A) env w :
  (∀ e, (m env w).1 ≠ Exc e) → try_except m h env w = m env w.
Proof.
  intros H. unfold try_except.
  destruct (m env w) as [[a|e|] w'] eqn:Hm; try done.
  by destruct (H e).
Qed.

Lemma dispatch_no_status env w request polls user_id again :
  redis_up env (calls w) = true →
  Redis.hget (session_key_of user_id) "status" (observed env w) = None →
  redis_up env (S (calls w)) = true →
  Gateway.dispatch polls request user_id again env w =
    try_except
      (if broker_up env (S (S (calls w)))
       then again
       else redis_delete (session_key_of user_id) ;;
            ret (Plain "Failed to queue pod creation." 500))
      Gateway.on_exception env (after_publish env w user_id).
Proof.
  intros Hup0 Hnone Hup1.
  unfold Gateway.dispatch, try_except at 1 3, bind at 1.
  rewrite hgetall_up by done. unfold observed, Redis.hget in Hnone.
  rewrite Hnone.
  rewrite (bool_decide_eq_false_2 (None = Some "ready")) by done.
  rewrite (bool_decide_eq_false_2 (None = Some "initiating")) by done.
  rewrite (bool_decide_eq_true_2 (None = None)) by done.
  unfold bind at 1. rewrite hset_up by done.
  unfold bind at 1. unfold try_except at 1. unfold bind at 1.
  unfold Gateway.publish_creation_request. cbn [calls called].
  unfold after_publish, after_initiating, after_hgetall, observed. cbn [calls called redis].
  destruct (broker_up env (S (S (calls w)))); reflexivity.
Qed.

(** C8: when the Gateway finds no record for the identity it writes status
    "initiating" and publishes the creation message for that identity.  If
    the broker accepts it, the handler re-enters itself on a store whose
    record says "initiating"; if publishing fails, the handler deletes the
    record, which puts the key back to the absent state it was observed in,
    and answers 500. *)
Theorem absent_session_is_initiated env w request depth polls user_id :
  Gateway.header_get "X-User-ID" (req_headers request) = Some user_id →
  Py.truthy user_id = true →
  redis_up env (calls w) = true →
  observed env w !! session_key_of user_id = None →
  redis_up env (S (calls w)) = true →
  (broker_up env (S (S (calls w))) = true →
   ∃ w1,
     Gateway.handle_all_requests (S depth) polls request env w
       = Gateway.handle_all_requests depth polls request env w1 ∧
     log w1 = log w ++ [EvHGetAll (session_key_of user_id);
                        EvHSet (session_key_of user_id) [("status", "initiating")];
                        EvPublish user_id true] ∧
     redis w1 = Redis.hset (session_key_of user_id) [("status", "initiating")]
                  (interfere env (S (calls w)) (observed env w)) ∧
     Redis.hget (session_key_of user_id) "status" (redis w1) = Some "initiating") ∧
  (broker_up env (S (S (calls w))) = false →
   redis_up env (S (S (S (calls w)))) = true →
   ∃ w',
     Gateway.handle_all_requests (S depth) polls request env w
       = (Val (Plain "Failed to queue pod creation." 500), w') ∧
     log w' = log w ++ [EvHGetAll (session_key_of user_id);
                        EvHSet (session_key_of user_id) [("status", "initiating")];
                        EvPublish user_id false;
                        EvDel (session_key_of user_id)] ∧
     redis w' !! session_key_of user_id = None ∧
     redis w' !! session_key_of user_id = observed env w !! session_key_of user_id).
Proof.
  intros Hhdr Hid Hup0 Habsent Hup1.
  assert (Hnone : Redis.hget (session_key_of user_id) "status" (observed env w) = None).
  { unfold Redis.hget, Redis.hgetall. by rewrite Habsent. }
  cbn [Gateway.handle_all_requests].
  rewrite (handler_body_of_user _ _ _ user_id) by done.
  rewrite dispatch_no_status by done.
  split.
  - intros Hpub. rewrite Hpub.
    exists (after_publish env w user_id).
    split; [apply try_except_returns, handler_never_raises|].
    unfold after_publish, after_initiating, after_hgetall, observed.
    cbn [log called redis calls]. rewrite Hpub.
    split; [by rewrite <- !app_assoc|].
    split; [reflexivity|]. apply hget_hset_same.
  - intros Hpub Hup3. rewrite Hpub.
    unfold try_except, bind. rewrite redis_delete_up by done. cbn [ret].
    eexists. split; [reflexivity|].
    unfold after_publish, after_initiating, after_hgetall, observed.
    cbn [log called redis calls]. rewrite Hpub.
    split; [by rewrite <- !app_assoc|].
    unfold Redis.del. rewrite lookup_delete_eq. unfold observed in Habsent.
    by rewrite Habsent.
Qed.

Lemma absent_session_is_initiated_witness :
  ∃ w',
    Gateway.handle_all_requests 1 0 (Scenario.get "alice" "/") Scenario.broker_down
      (Scenario.world ∅ 0)
      = (Val (Plain "Failed to queue pod creation." 500), w') ∧
    log w' = [EvHGetAll "session:alice";
              EvHSet "session:alice" [("status", "initiating")];
              EvPublish "alice" false;
              EvDel "session:alice"] ∧
    redis w' !! "session:alice" = None ∧
    redis w' !! "session:alice" = (∅ : Store) !! "session:alice".
Proof.
  exact (proj2 (absent_session_is_initiated Scenario.broker_down
                  (Scenario.world ∅ 0) (Scenario.get "alice" "/") 0 0 "alice"
                  eq_refl eq_refl eq_refl eq_refl eq_refl) eq_refl eq_refl).
Defined.

Lemma long_poll_unfold polls request key t0 env w :
  Gateway.long_poll (S polls) request key t0 env w =
    if (clock w - t0 <? 90000)%Z
    then match poll key env w with
         | (Val status, w1) =>
             if bool_decide (status = Some "ready")
             then touch_and_proxy key request env w1
             else if bool_decide (status = Some "failed")
             then (Val creation_failed, w1)
             else Gateway.long_poll polls request key t0 env w1
         | (Exc e, w1) => (Exc e, w1)
         | (OutOfFuel, w1) => (OutOfFuel, w1)
         end
    else (Val gateway_timeout, w).
Proof.
  cbn [Gateway.long_poll]. unfold poll, touch_and_proxy, bind, time_time.
  destruct (clock w - t0 <? 90000)%Z; [|reflexivity].
  destruct (Gateway.sleep_500ms env w) as [[[]|e|] w0]; try reflexivity.
  destruct (hget key "status" env w0) as [[status|e|] w1]; try reflexivity.
  repeat case_bool_decide; reflexivity.
Qed.

Lemma poll_run key env w :
  ∃ out w1, poll key env w = (out, w1) ∧ out ≠ OutOfFuel ∧
            (clock w + 500 ≤ clock w1)%Z ∧
            log w1 = log w ++ [EvSleep 500; EvHGet key "status"].
Proof.
  unfold poll, bind, Gateway.sleep_500ms, ask, hget, redis_cmd. cbn [calls called].
  destruct (redis_up env (S (calls w))); eexists _, _;
    (split; [reflexivity|]; split; [done|]; cbn [clock log called];
     split; [lia | by rewrite <- app_assoc]).
Qed.

Lemma touch_and_proxy_run key request env w :
  ∃ out w1, touch_and_proxy key request env w = (out, w1) ∧ out ≠ OutOfFuel ∧
            out ≠ Val gateway_timeout ∧
            ∃ events, log w1 = log w ++ events ∧ Forall quiet_event events.
Proof.
  unfold touch_and_proxy, bind at 1, hget, redis_cmd.
  destruct (redis_up env (calls w)); cbn [fst snd].
  2:{ eexists _, _. split; [reflexivity|]. split; [done|]. split; [done|].
      eexists [_]. split; [reflexivity|]. repeat constructor. }
  unfold bind at 1, Gateway.touch, bind at 1, int_time, hset, redis_cmd.
  cbn [calls called].
  destruct (redis_up env (S (calls w))); cbn [fst snd].
  2:{ eexists _, _. split; [reflexivity|]. split; [done|]. split; [done|].
      eexists [_; _]. cbn [log called]. rewrite <- app_assoc.
      split; [reflexivity|]. repeat constructor. }
  unfold Gateway.proxy_request, try_except, bind, Gateway.send, ask. cbn [calls called].
  destruct (upstream env (S (S (calls w))) _) as [u|e].
  - eexists _, _. split; [reflexivity|]. split; [done|]. split; [done|].
    eexists [_; _; _]. cbn [log called]. rewrite <- !app_assoc.
    split; [reflexivity|]. repeat constructor.
  - destruct e; eexists _, _;
      (split; [reflexivity|]; split; [done|]; split; [done|]);
      eexists [_; _; _]; cbn [log called raise ret]; rewrite <- !app_assoc;
      (split; [reflexivity|]; repeat constructor).
Qed.

Lemma long_poll_run env request key t0 polls :
  ∀ w, (1 ≤ polls)%nat →
       (t0 + 90000 - clock w ≤ 500 * (Z.of_nat polls - 1))%Z →
  ∃ out w', Gateway.long_poll polls request key t0 env w = (out, w') ∧
            out ≠ OutOfFuel ∧
            ∃ events, log w' = log w ++ events ∧ Forall quiet_event events.
Proof.
  induction polls as [|polls IH]; intros w Hpos Hfuel; [lia|].
  rewrite long_poll_unfold.
  destruct (Z.ltb_spec (clock w - t0) 90000) as [Hlt|Hge].
  2:{ exists (Val gateway_timeout), w. split; [done|]. split; [done|].
      exists []. by rewrite app_nil_r. }
  destruct (poll_run key env w) as (out & w1 & Hpoll & Hfuel1 & Hclock & Hlog).
  rewrite Hpoll.
  destruct out as [status|e|]; [| |done].
  - case_bool_decide as Hready; [|case_bool_decide as Hfailed].
    + subst status.
      destruct (touch_and_proxy_run key request env w1)
        as (out & w2 & Hrun & Hfuel2 & Hnot504 & events & Hlog2 & Hquiet).
      exists out, w2. split; [done|]. split; [done|].
      exists ([EvSleep 500; EvHGet key "status"] ++ events).
      rewrite Hlog2, Hlog, <- app_assoc. split; [done|].
      apply Forall_app. split; [repeat constructor | done].
    + subst status. exists (Val creation_failed), w1.
      split; [done|]. split; [done|].
      exists [EvSleep 500; EvHGet key "status"]. split; [done|]. repeat constructor.
    + destruct (IH w1) as (out & w2 & Hrun & Hfuel2 & events & Hlog2 & Hquiet);
        [lia | lia |].
      exists out, w2. split; [done|]. split; [done|].
      exists ([EvSleep 500; EvHGet key "status"] ++ events).
      rewrite Hlog2, Hlog, <- app_assoc. split; [done|].
      apply Forall_app. split; [repeat constructor | done].
  - exists (Exc e), w1. split; [done|]. split; [done|].
    exists [EvSleep 500; EvHGet key "status"]. split; [done|]. repeat constructor.
Qed.

Lemma try_on_exception_settles (m : M Response) env w :
  try_except m Gateway.on_exception env w = (settle (m env w).1, (m env w).2).
Proof. unfold try_except. by destruct (m env w) as [[r|e|] w']. Qed.

Lemma dispatch_initiating env w request polls user_id again :
  redis_up env (calls w) = true →
  Redis.hget (session_key_of user_id) "status" (observed env w) = Some "initiating" →
  Gateway.dispatch polls request user_id again env w =
    try_except
      (Gateway.long_poll polls request (session_key_of user_id)
         (clock (after_hgetall env w (session_key_of user_id))))
      Gateway.on_exception env (after_hgetall env w (session_key_of user_id)).
Proof.
  intros Hup Hst.
  unfold Gateway.dispatch, try_except at 1 2, bind at 1.
  rewrite hgetall_up by done. unfold observed, Redis.hget in Hst. rewrite Hst.
  rewrite (bool_decide_eq_false_2 (Some "initiating" = Some "ready")) by done.
  rewrite (bool_decide_eq_true_2 (Some "initiating" = Some "initiating")) by done.
  reflexivity.
Qed.






Example long_poll_hands_over_to_proxy :
  let out := Gateway.handle_all_requests 1 181 (Scenario.get "alice" "/x")
               Scenario.worker_finishes
               (Scenario.world (Scenario.initiating "alice") 1700000000000) in
  out.1 = Val (Streaming {| up_status := 200; up_headers := []; up_raw := "It works!" |}) ∧
  Redis.hget "session:alice" "last_active" (redis out.2) = Some "1700000001" ∧
  clock out.2 = 1700000001000%Z.
Proof. vm_compute. repeat split; reflexivity. Qed.

Example long_poll_times_out :
  let out := Gateway.handle_all_requests 1 181 (Scenario.get "alice" "/x")
               Scenario.quiet
               (Scenario.world (Scenario.initiating "alice") 1700000000000) in
  out.1 = Val gateway_timeout ∧ clock out.2 = 1700000090000%Z.
Proof. vm_compute. split; reflexivity. Qed.

Lemma tally_app p l1 l2 : tally p (l1 ++ l2) = tally p l1 + tally p l2.
Proof. induction l1 as [|ev l1 IH]; simpl; [done|]. rewrite IH. lia. Qed.

Lemma tally_quiet events :
  Forall quiet_event events →
  tally is_entry events = 0 ∧ tally is_initiation events = 0 ∧
  tally is_deletion events = 0.
Proof.
  induction 1 as [|ev events (He & Hi & Hd) _ (IHe & IHi & IHd)]; simpl; [done|].
  by rewrite He, Hi, Hd, IHe, IHi, IHd.
Qed.

Lemma answers_weaken env w m e i d e' i' d' :
  answers env w m e i d → e ≤ e' → i ≤ i' → d ≤ d' → answers env w m e' i' d'.
Proof.
  intros (r & w' & events & Hrun & Hlog & He & Hi & Hd) ? ? ?.
  exists r, w', events. repeat split; try done; lia.
Qed.

Lemma handler_of_user depth polls request user_id :
  Gateway.header_get "X-User-ID" (req_headers request) = Some user_id →
  Py.truthy user_id = true →
  Gateway.handle_all_requests (S depth) polls request
  = Gateway.dispatch polls request user_id
      (Gateway.handle_all_requests depth polls request).
Proof. intros. cbn [Gateway.handle_all_requests]. by apply handler_body_of_user. Qed.

Lemma store_down_answers env w request polls user_id again :
  redis_up env (calls w) = false →
  answers_with env w (Gateway.dispatch polls request user_id again)
    [EvHGetAll (session_key_of user_id)].
Proof.
  intros Hdown. unfold answers_with, Gateway.dispatch, try_except, bind, hgetall, redis_cmd.
  rewrite Hdown. eexists _, _. split; reflexivity.
Qed.

Lemma ready_answers env w request polls user_id again :
  redis_up env (calls w) = true →
  Redis.hget (session_key_of user_id) "status" (observed env w) = Some "ready" →
  ∃ events,
    answers_with env w (Gateway.dispatch polls request user_id again)
      (EvHGetAll (session_key_of user_id) :: events) ∧
    Forall quiet_event events.
Proof.
  intros Hup Hst. unfold answers_with.
  unfold Gateway.dispatch, try_except at 1, bind at 1.
  rewrite hgetall_up by done. unfold observed, Redis.hget in Hst. rewrite Hst.
  rewrite (bool_decide_eq_true_2 (Some "ready" = Some "ready")) by done.
  destruct (negb _).
  { exists []. split; [eexists _, _; split; reflexivity|constructor]. }
  unfold bind at 1, Gateway.touch, bind at 1, int_time, hset, redis_cmd.
  cbn [calls called].
  destruct (redis_up env (S (calls w))); cbn [fst snd].
  2:{ exists [EvHSet (session_key_of user_id)
                  [("last_active",
                    Py.str_of_int
                      (clock (called (EvHGetAll (session_key_of user_id)) 0 env w
                                (interfere env (calls w) (redis w))) ÷ 1000))]].
      split; [|repeat constructor].
      eexists _, _; split; [reflexivity|].
      cbn [log called]. by rewrite <- app_assoc. }
  unfold Gateway.proxy_request, try_except, bind, Gateway.send, ask. cbn [calls called].
  destruct (upstream env (S (S (calls w))) _) as [u|e].
  - exists [EvHSet (session_key_of user_id)
                [("last_active",
                  Py.str_of_int
                    (clock (called (EvHGetAll (session_key_of user_id)) 0 env w
                              (interfere env (calls w) (redis w))) ÷ 1000))];
            EvProxy (Gateway.proxy_call
                       (Redis.hgetall (session_key_of user_id)
                          (interfere env (calls w) (redis w)) !! "ip") request)].
    split; [|repeat constructor].
    eexists _, _; split; [reflexivity|].
    cbn [log called]. by rewrite <- !app_assoc.
  - exists [EvHSet (session_key_of user_id)
                [("last_active",
                  Py.str_of_int
                    (clock (called (EvHGetAll (session_key_of user_id)) 0 env w
                              (interfere env (calls w) (redis w))) ÷ 1000))];
            EvProxy (Gateway.proxy_call
                       (Redis.hgetall (session_key_of user_id)
                          (interfere env (calls w) (redis w)) !! "ip") request)].
    split; [|repeat constructor].
    destruct e; eexists _, _; (split; [reflexivity|]);
      cbn [log called raise ret]; by rewrite <- !app_assoc.
Qed.

Lemma initiating_answers env w request polls user_id again :
  redis_up env (calls w) = true →
  Redis.hget (session_key_of user_id) "status" (observed env w) = Some "initiating" →
  181 ≤ polls →
  ∃ events,
    answers_with env w (Gateway.dispatch polls request user_id again)
      (EvHGetAll (session_key_of user_id) :: events) ∧
    Forall quiet_event events.
Proof.
  intros Hup Hst Hpolls. unfold answers_with. rewrite dispatch_initiating by done.
  set (w0 := after_hgetall env w (session_key_of user_id)).
  destruct (long_poll_run env request (session_key_of user_id) (clock w0) polls w0)
    as (out & w' & Hrun & Hfuel & events & Hlog & Hquiet); [lia | lia |].
  rewrite try_on_exception_settles, Hrun. cbn [fst snd].
  exists events. split; [|done].
  assert (Hlog' : log w' = log w ++ EvHGetAll (session_key_of user_id) :: events).
  { rewrite Hlog. unfold w0, after_hgetall. cbn [log called]. by rewrite <- app_assoc. }
  destruct out as [r|e|]; [| |done]; eexists _, w'; split; done.
Qed.

Lemma unknown_answers env w request polls user_id again status :
  redis_up env (calls w) = true →
  Redis.hget (session_key_of user_id) "status" (observed env w) = Some status →
  status ≠ "ready" → status ≠ "initiating" → status ≠ "failed" →
  answers_with env w (Gateway.dispatch polls request user_id again)
    [EvHGetAll (session_key_of user_id)].
Proof.
  intros Hup Hst H1 H2 H3. unfold answers_with.
  unfold Gateway.dispatch, try_except at 1, bind at 1.
  rewrite hgetall_up by done. unfold observed, Redis.hget in Hst. rewrite Hst.
  rewrite !bool_decide_eq_false_2 by congruence.
  eexists _, _. split; reflexivity.
Qed.

Lemma failed_reenters env w request polls user_id again :
  redis_up env (calls w) = true →
  Redis.hget (session_key_of user_id) "status" (observed env w) = Some "failed" →
  answers_with env w (Gateway.dispatch polls request user_id again)
    [EvHGetAll (session_key_of user_id); EvDel (session_key_of user_id)] ∨
  Gateway.dispatch polls request user_id again env w
    = try_except again Gateway.on_exception env
        (after_delete env w (session_key_of user_id)).
Proof.
  intros Hup Hst.
  destruct (redis_up env (S (calls w))) eqn:Hup1; [right|left; unfold answers_with];
    unfold Gateway.dispatch, try_except at 1, bind at 1;
    rewrite hgetall_up by done; unfold observed, Redis.hget in Hst; rewrite Hst;
    rewrite !bool_decide_eq_false_2 by congruence;
    rewrite (bool_decide_eq_true_2 (Some "failed" = Some "failed")) by done;
    unfold bind at 1, redis_delete, redis_cmd; cbn [calls called]; rewrite Hup1;
    cbn [fst snd].
  - reflexivity.
  - eexists _, _. split; [reflexivity|]. cbn [log called].
    by rewrite <- app_assoc.
Qed.

Lemma absent_reenters env w request polls user_id again :
  redis_up env (calls w) = true →
  Redis.hget (session_key_of user_id) "status" (observed env w) = None →
  (∃ events,
     answers_with env w (Gateway.dispatch polls request user_id again)
       (EvHGetAll (session_key_of user_id) :: events) ∧
     (events = [EvHSet (session_key_of user_id) [("status", "initiating")]] ∨
      events = [EvHSet (session_key_of user_id) [("status", "initiating")];
                EvPublish user_id false; EvDel (session_key_of user_id)])) ∨
  (broker_up env (S (S (calls w))) = true ∧
   Gateway.dispatch polls request user_id again env w
   = try_except again Gateway.on_exception env (after_publish env w user_id)).
Proof.
  intros Hup Hst.
  destruct (redis_up env (S (calls w))) eqn:Hup1.
  - destruct (broker_up env (S (S (calls w)))) eqn:Hpub;
      [right; rewrite dispatch_no_status by done; by rewrite Hpub|left].
    unfold answers_with. rewrite dispatch_no_status by done. rewrite Hpub.
    unfold try_except, bind, redis_delete, redis_cmd.
    unfold after_publish, after_initiating, after_hgetall, observed.
    cbn [calls called redis]. rewrite Hpub.
    eexists. split; [|right; reflexivity].
    destruct (redis_up env (S (S (S (calls w))))); cbn [fst snd];
      eexists _, _; (split; [reflexivity|]); cbn [log called];
      by rewrite <- !app_assoc.
  - left. unfold answers_with.
    unfold Gateway.dispatch, try_except at 1, bind at 1.
    rewrite hgetall_up by done. unfold observed, Redis.hget in Hst. rewrite Hst.
    rewrite !bool_decide_eq_false_2 by congruence.
    rewrite (bool_decide_eq_true_2 (None = None)) by done.
    unfold bind at 1, hset, redis_cmd. cbn [calls called]. rewrite Hup1.
    eexists. split; [|left; reflexivity].
    eexists _, _. split; [reflexivity|]. cbn [log called].
    by rewrite <- app_assoc.
Qed.

Lemma reenter env w1 depth polls request :
  try_except (Gateway.handle_all_requests depth polls request)
    Gateway.on_exception env w1
  = Gateway.handle_all_requests depth polls request env w1.
Proof. apply try_except_returns, handler_never_raises. Qed.

Lemma quiet_tally_zero events :
  Forall quiet_event events →
  tally is_entry events = 0 ∧ tally is_initiation events ≤ 1 ∧
  tally is_deletion events ≤ 1.
Proof. intros H. destruct (tally_quiet events H) as (-> & -> & ->). lia. Qed.

(** One entry of the handler either answers, or makes one transition and
    enters itself again. *)
Lemma entry_step env w request polls depth user_id :
  Gateway.header_get "X-User-ID" (req_headers request) = Some user_id →
  Py.truthy user_id = true →
  181 ≤ polls →
  (∃ events,
     answers_with env w (Gateway.handle_all_requests (S depth) polls request)
       (EvHGetAll (session_key_of user_id) :: events) ∧
     tally is_entry events = 0 ∧ tally is_initiation events ≤ 1 ∧
     tally is_deletion events ≤ 1) ∨
  (∃ w1 events,
     Gateway.handle_all_requests (S depth) polls request env w
     = Gateway.handle_all_requests depth polls request env w1 ∧
     log w1 = log w ++ EvHGetAll (session_key_of user_id) :: events ∧
     ((Redis.hget (session_key_of user_id) "status" (observed env w) = None ∧
       events = [EvHSet (session_key_of user_id) [("status", "initiating")];
                 EvPublish user_id true] ∧
       Redis.hget (session_key_of user_id) "status" (redis w1) = Some "initiating") ∨
      (Redis.hget (session_key_of user_id) "status" (observed env w) = Some "failed" ∧
       events = [EvDel (session_key_of user_id)] ∧
       redis w1 !! session_key_of user_id = None))).
Proof.
  intros Hhdr Hid Hpolls. rewrite (handler_of_user _ _ _ user_id) by done.
  set (again := Gateway.handle_all_requests depth polls request).
  destruct (redis_up env (calls w)) eqn:Hup.
  2:{ left. exists []. split; [by apply store_down_answers|simpl; lia]. }
  destruct (Redis.hget (session_key_of user_id) "status" (observed env w))
    as [status|] eqn:Hst.
  - destruct (decide (status = "failed")) as [->|Hnf].
    + destruct (failed_reenters env w request polls user_id again Hup Hst)
        as [Hdone|Hagain].
      * left. exists [EvDel (session_key_of user_id)]. split; [done|]. simpl. lia.
      * right. exists (after_delete env w (session_key_of user_id)), [EvDel (session_key_of user_id)].
        split; [rewrite Hagain; apply reenter|].
        split; [unfold after_delete, after_hgetall; cbn [log called];
                by rewrite <- !app_assoc|].
        right. split; [done|]. split; [done|].
        unfold after_delete. cbn [redis called]. unfold Redis.del.
        apply lookup_delete_eq.
    + left.
      destruct (decide (status = "ready")) as [->|Hr].
      { destruct (ready_answers env w request polls user_id again Hup Hst)
          as (events & Hrun & Hquiet).
        exists events. split; [done|]. by apply quiet_tally_zero. }
      destruct (decide (status = "initiating")) as [->|Hi].
      { destruct (initiating_answers env w request polls user_id again Hup Hst Hpolls)
          as (events & Hrun & Hquiet).
        exists events. split; [done|]. by apply quiet_tally_zero. }
      exists []. split; [by eapply unknown_answers|simpl; lia].
  - destruct (absent_reenters env w request polls user_id again Hup Hst)
      as [(events & Hrun & Hev)|[Hpub Hagain]].
    + left. exists events. split; [done|].
      destruct Hev as [-> | ->]; simpl; lia.
    + right. exists (after_publish env w user_id),
        [EvHSet (session_key_of user_id) [("status", "initiating")];
         EvPublish user_id true].
      split; [rewrite Hagain; apply reenter|].
      split; [unfold after_publish, after_initiating, after_hgetall;
              cbn [log called calls]; rewrite Hpub; by rewrite <- !app_assoc|].
      left. split; [done|]. split; [done|].
      unfold after_publish, after_initiating. cbn [redis called].
      apply hget_hset_same.
Qed.

(** The handler answers whatever the store returns: each long poll ends,
    and the nesting ends at the recursion limit at the latest.  Every entry
    accounts for at most one write of "initiating" and one deletion. *)
Lemma handler_accounts env request polls :
  181 ≤ polls →
  ∀ depth w, ∃ r w' events,
    Gateway.handle_all_requests depth polls request env w = (Val r, w') ∧
    log w' = log w ++ events ∧
    tally is_entry events ≤ depth ∧
    tally is_initiation events ≤ tally is_entry events ∧
    tally is_deletion events ≤ tally is_entry events.
Proof.
  intros Hpolls. induction depth as [|depth IH]; intros w.
  { exists (InternalError RecursionError), w, []. rewrite app_nil_r. by simpl. }
  destruct (Gateway.header_get "X-User-ID" (req_headers request)) as [user_id|] eqn:Hhdr.
  2:{ cbn [Gateway.handle_all_requests]. unfold Gateway.handler_body. rewrite Hhdr.
      exists (Plain "X-User-ID header is required." 400), w, [].
      rewrite app_nil_r. simpl. repeat split; try done; lia. }
  destruct (Py.truthy user_id) eqn:Hid.
  2:{ cbn [Gateway.handle_all_requests]. unfold Gateway.handler_body. rewrite Hhdr, Hid.
      exists (Plain "X-User-ID header is required." 400), w, [].
      rewrite app_nil_r. simpl. repeat split; try done; lia. }
  destruct (entry_step env w request polls depth user_id Hhdr Hid Hpolls)
    as [(events & (r & w' & Hrun & Hlog) & He & Hi & Hd)
       |(w1 & events & Hagain & Hlog & Hkind)].
  - exists r, w', (EvHGetAll (session_key_of user_id) :: events).
    split; [done|]. split; [done|]. simpl. lia.
  - destruct (IH w1) as (r & w' & rest & Hrun & Hlog' & He & Hi & Hd).
    exists r, w', (EvHGetAll (session_key_of user_id) :: events ++ rest).
    split; [by rewrite Hagain|].
    split; [rewrite Hlog', Hlog, <- app_assoc; reflexivity|].
    cbn [tally is_entry is_initiation is_deletion]. rewrite !tally_app.
    destruct Hkind as [(_ & -> & _)|(_ & -> & _)]; simpl; lia.
Qed.

Lemma answers_quietly env w m key events :
  answers_with env w m (EvHGetAll key :: events) →
  Forall quiet_event events →
  answers env w m 1 0 0.
Proof.
  intros (r & w' & Hrun & Hlog) Hquiet.
  destruct (tally_quiet events Hquiet) as (He & Hi & Hd).
  exists r, w', (EvHGetAll key :: events). simpl. rewrite He, Hi, Hd.
  repeat split; try done; lia.
Qed.

Lemma answers_reentered env w w1 (m again : M Response) pre e i d :
  m env w = again env w1 →
  log w1 = log w ++ pre →
  answers env w1 again e i d →
  answers env w m (tally is_entry pre + e) (tally is_initiation pre + i)
    (tally is_deletion pre + d).
Proof.
  intros Hm Hpre (r & w' & events & Hrun & Hlog & He & Hi & Hd).
  exists r, w', (pre ++ events).
  rewrite Hm, Hrun, Hlog, Hpre, <- app_assoc, !tally_app.
  repeat split; try done; lia.
Qed.

Lemma limit_answers env w polls request :
  answers env w (Gateway.handle_all_requests 0 polls request) 0 0 0.
Proof.
  exists (InternalError RecursionError), w, []. rewrite app_nil_r. by simpl.
Qed.

Lemma settles_here env w request polls depth user_id :
  Gateway.header_get "X-User-ID" (req_headers request) = Some user_id →
  Py.truthy user_id = true →
  181 ≤ polls →
  (redis_up env (calls w) = false ∨
   ∃ status, Redis.hget (session_key_of user_id) "status" (observed env w) = Some status ∧
             status ≠ "failed") →
  answers env w (Gateway.handle_all_requests depth polls request) 1 0 0.
Proof.
  intros Hhdr Hid Hpolls Hcase.
  destruct depth as [|depth].
  { eapply answers_weaken; [apply limit_answers|lia..]. }
  rewrite (handler_of_user _ _ _ user_id) by done.
  set (again := Gateway.handle_all_requests depth polls request).
  assert (Hdown : redis_up env (calls w) = false →
                  answers env w (Gateway.dispatch polls request user_id again) 1 0 0).
  { intros Hdown. eapply (answers_quietly _ _ _ _ []); [by apply store_down_answers|done]. }
  destruct Hcase as [Hd|(status & Hst & Hnf)]; [by apply Hdown|].
  destruct (redis_up env (calls w)) eqn:Hup; [|by apply Hdown].
  destruct (decide (status = "ready")) as [->|Hr].
  { destruct (ready_answers env w request polls user_id again Hup Hst)
      as (events & Hrun & Hquiet). by eapply answers_quietly. }
  destruct (decide (status = "initiating")) as [->|Hi].
  { destruct (initiating_answers env w request polls user_id again Hup Hst Hpolls)
      as (events & Hrun & Hquiet). by eapply answers_quietly. }
  eapply (answers_quietly _ _ _ _ []); [by eapply unknown_answers|done].
Qed.

Lemma answers_entry env w m key events :
  answers_with env w m (EvHGetAll key :: events) →
  tally is_entry events = 0 → tally is_initiation events ≤ 1 →
  tally is_deletion events ≤ 1 →
  answers env w m 1 1 1.
Proof.
  intros (r & w' & Hrun & Hlog) He Hi Hd.
  exists r, w', (EvHGetAll key :: events). simpl. repeat split; try done; lia.
Qed.

Lemma absent_settles env w request polls depth user_id :
  undisturbed env →
  Gateway.header_get "X-User-ID" (req_headers request) = Some user_id →
  Py.truthy user_id = true →
  181 ≤ polls →
  Redis.hget (session_key_of user_id) "status" (observed env w) = None →
  answers env w (Gateway.handle_all_requests depth polls request) 2 1 1.
Proof.
  intros Hq Hhdr Hid Hpolls Hst.
  destruct depth as [|depth].
  { eapply answers_weaken; [apply limit_answers|lia..]. }
  destruct (entry_step env w request polls depth user_id Hhdr Hid Hpolls)
    as [(events & Hrun & He & Hi & Hd)|(w1 & events & Hagain & Hlog & Hkind)].
  { eapply answers_weaken; [by eapply answers_entry|lia..]. }
  destruct Hkind as [(_ & -> & Hnext)|(Hfailed & _)]; [|congruence].
  eapply answers_weaken.
  - eapply answers_reentered; [exact Hagain|exact Hlog|].
    eapply (settles_here _ _ _ _ _ user_id); try done.
    right. unfold observed.
    destruct (Hq (session_key_of user_id) (calls w1) (redis w1)) as [Hf Hn].
    destruct (Redis.hget _ "status" (interfere env _ _)) as [status|];
      [|specialize (Hn eq_refl); congruence].
    exists status. split; [done|]. intros ->. specialize (Hf eq_refl). congruence.
  - simpl. lia.
  - simpl. lia.
  - simpl. lia.
Qed.

Lemma undisturbed_bound env w request polls depth :
  undisturbed env →
  181 ≤ polls →
  answers env w (Gateway.handle_all_requests depth polls request) 3 1 2.
Proof.
  intros Hq Hpolls.
  destruct depth as [|depth].
  { eapply answers_weaken; [apply limit_answers|lia..]. }
  destruct (Gateway.header_get "X-User-ID" (req_headers request)) as [user_id|] eqn:Hhdr.
  2:{ cbn [Gateway.handle_all_requests]. unfold Gateway.handler_body. rewrite Hhdr.
      exists (Plain "X-User-ID header is required." 400), w, [].
      rewrite app_nil_r. simpl. repeat split; try done; lia. }
  destruct (Py.truthy user_id) eqn:Hid.
  2:{ cbn [Gateway.handle_all_requests]. unfold Gateway.handler_body. rewrite Hhdr, Hid.
      exists (Plain "X-User-ID header is required." 400), w, [].
      rewrite app_nil_r. simpl. repeat split; try done; lia. }
  destruct (redis_up env (calls w)) eqn:Hup.
  2:{ eapply answers_weaken; [eapply (settles_here _ _ _ _ _ user_id); eauto|lia..]. }
  destruct (Redis.hget (session_key_of user_id) "status" (observed env w))
    as [status|] eqn:Hst.
  2:{ eapply answers_weaken; [by eapply (absent_settles _ _ _ _ _ user_id)|lia..]. }
  destruct (decide (status = "failed")) as [->|Hnf].
  2:{ eapply answers_weaken; [eapply (settles_here _ _ _ _ _ user_id); eauto|lia..]. }
  destruct (entry_step env w request polls depth user_id Hhdr Hid Hpolls)
    as [(events & Hrun & He & Hi & Hd)|(w1 & events & Hagain & Hlog & Hkind)].
  { eapply answers_weaken; [by eapply answers_entry|lia..]. }
  destruct Hkind as [(Habsent & _)|(_ & -> & Hnext)]; [congruence|].
  eapply answers_weaken.
  - eapply answers_reentered; [exact Hagain|exact Hlog|].
    destruct (Redis.hget (session_key_of user_id) "status" (observed env w1))
      as [status|] eqn:Hst1.
    + eapply answers_weaken; [eapply (settles_here _ _ _ _ _ user_id); try done|
                              apply Nat.le_succ_diag_r|apply Nat.le_0_1|apply Nat.le_0_1].
      right. exists status. split; [done|]. intros ->.
      destruct (Hq (session_key_of user_id) (calls w1) (redis w1)) as [Hf _].
      specialize (Hf Hst1). unfold Redis.hget, Redis.hgetall in Hf.
      rewrite Hnext in Hf. done.
    + by eapply (absent_settles _ _ _ _ _ user_id).
  - simpl. lia.
  - simpl. lia.
  - simpl. lia.
Qed.

(** Under [Scenario.wiped] every entry finds the record absent, writes
    "initiating", publishes and enters again: the nesting only ends at the
    recursion limit, whatever it is. *)
Lemma wiped_store_reenters_to_the_limit depth polls :
  ∀ w, ∃ w' events,
    Gateway.handle_all_requests depth polls (Scenario.get "alice" "/")
      Scenario.wiped w = (Val (InternalError RecursionError), w') ∧
    log w' = log w ++ events ∧
    tally is_entry events = depth ∧ tally is_initiation events = depth.
Proof.
  induction depth as [|depth IH]; intros w.
  { exists w, []. by rewrite app_nil_r. }
  rewrite (handler_of_user _ _ _ "alice") by reflexivity.
  rewrite dispatch_no_status; try reflexivity.
  - cbn [broker_up Scenario.wiped Scenario.quiet]. rewrite reenter.
    destruct (IH (after_publish Scenario.wiped w "alice"))
      as (w' & events & Hrun & Hlog & He & Hi).
    exists w', ([EvHGetAll "session:alice";
                 EvHSet "session:alice" [("status", "initiating")];
                 EvPublish "alice" true] ++ events).
    split; [done|]. split.
    + rewrite Hlog. unfold after_publish, after_initiating, after_hgetall.
      cbn [log called]. by rewrite <- !app_assoc.
    + rewrite !tally_app, He, Hi. by simpl.
  - unfold observed, Redis.hget, Redis.hgetall, Redis.del.
    cbn [interfere Scenario.wiped]. unfold Redis.del.
    change (session_key_of "alice") with "session:alice".
    by rewrite lookup_delete_eq.
Qed.

(** C4, amended: the code has no depth bound of its own.  Whatever the store
    returns, the handler answers: each long poll ends, and the nesting ends
    at the interpreter's recursion limit at the latest, which is answered
    500; until then it is entered as often as the store shows an absent or
    a failed record, each entry writing "initiating" at most once and
    deleting at most once.  One entry either answers, or makes exactly one
    transition (absent → initiating: the write and the accepted publish;
    failed → absent: the deletion) and enters the handler again.  When, during
    the request, no other process deletes a record or marks one failed
    (the Worker may still mark the session ready), the handler is entered
    at most three times, writes "initiating" at most once and deletes at
    most twice. *)
Theorem handler_transitions_once_per_entry env w request polls depth :
  181 ≤ polls →
  (∃ r w' events,
     Gateway.handle_all_requests depth polls request env w = (Val r, w') ∧
     log w' = log w ++ events ∧
     tally is_entry events ≤ depth ∧
     tally is_initiation events ≤ tally is_entry events ∧
     tally is_deletion events ≤ tally is_entry events ∧
     (undisturbed env →
      tally is_entry events ≤ 3 ∧ tally is_initiation events ≤ 1 ∧
      tally is_deletion events ≤ 2)) ∧
  (∀ user_id,
     Gateway.header_get "X-User-ID" (req_headers request) = Some user_id →
     Py.truthy user_id = true →
     (∃ events,
        answers_with env w (Gateway.handle_all_requests (S depth) polls request)
          (EvHGetAll (session_key_of user_id) :: events) ∧
        tally is_entry events = 0 ∧ tally is_initiation events ≤ 1 ∧
        tally is_deletion events ≤ 1) ∨
     (∃ w1 events,
        Gateway.handle_all_requests (S depth) polls request env w
        = Gateway.handle_all_requests depth polls request env w1 ∧
        log w1 = log w ++ EvHGetAll (session_key_of user_id) :: events ∧
        ((Redis.hget (session_key_of user_id) "status" (observed env w) = None ∧
          events = [EvHSet (session_key_of user_id) [("status", "initiating")];
                    EvPublish user_id true] ∧
          Redis.hget (session_key_of user_id) "status" (redis w1) = Some "initiating") ∨
         (Redis.hget (session_key_of user_id) "status" (observed env w) = Some "failed" ∧
          events = [EvDel (session_key_of user_id)] ∧
          redis w1 !! session_key_of user_id = None)))).
Proof.
  intros Hpolls. split.
  - destruct (handler_accounts env request polls Hpolls depth w)
      as (r & w' & events & Hrun & Hlog & He & Hi & Hd).
    exists r, w', events. repeat split; try done;
      destruct (undisturbed_bound env w request polls depth H Hpolls)
        as (r' & w'' & events' & Hrun' & Hlog' & He' & Hi' & Hd');
      rewrite Hrun in Hrun'; injection Hrun' as <- <-;
      rewrite Hlog in Hlog'; apply app_inv_head in Hlog'; by subst events'.
  - intros user_id Hhdr Hid. by apply entry_step.
Qed.

Lemma handler_transitions_once_per_entry_witness :
  ∃ r w' events,
    Gateway.handle_all_requests 8 181 (Scenario.get "alice" "/") Scenario.quiet
      (Scenario.world (Scenario.failed "alice") 0) = (Val r, w') ∧
    log w' = events ∧
    tally is_entry events ≤ 8 ∧
    tally is_initiation events ≤ tally is_entry events ∧
    tally is_deletion events ≤ tally is_entry events ∧
    (undisturbed Scenario.quiet →
     tally is_entry events ≤ 3 ∧ tally is_initiation events ≤ 1 ∧
     tally is_deletion events ≤ 2).
Proof.
  exact (proj1 (handler_transitions_once_per_entry Scenario.quiet
                  (Scenario.world (Scenario.failed "alice") 0)
                  (Scenario.get "alice" "/") 181 8 (le_n 181))).
Defined.

(** C4, as stated, fails on both counts.  A request that finds the record
    "failed" on an undisturbed store makes two transitions (it deletes the
    record, then writes "initiating").  And when the record keeps
    disappearing, the handler enters itself until the recursion limit stops
    it: with eight entries allowed it is entered eight times. *)
Lemma handler_depth_is_not_bounded_by_two :
  (let out := Gateway.handle_all_requests 8 181 (Scenario.get "alice" "/")
                Scenario.quiet (Scenario.world (Scenario.failed "alice") 0) in
   out.1 = Val gateway_timeout ∧
   tally is_deletion (log out.2) = 1 ∧
   tally is_initiation (log out.2) = 1 ∧
   tally is_entry (log out.2) = 3) ∧
  (let out := Gateway.handle_all_requests 8 181 (Scenario.get "alice" "/")
                Scenario.wiped (Scenario.world ∅ 0) in
   out.1 = Val (InternalError RecursionError) ∧
   tally is_initiation (log out.2) = 8 ∧
   tally is_entry (log out.2) = 8).
Proof.
  split; cbv zeta; repeat split; vm_compute; reflexivity.
Qed.

(** ** Further properties of the three services *)

Lemma is_dash_eq c : Py.is_dash c = true → c = Py.dash.
Proof.
  unfold Py.is_dash, Py.code. intros H. apply N.eqb_eq in H.
  rewrite <- (ascii_N_embedding c), H. reflexivity.
Qed.

Lemma re_sub_label s : all_chars label_char (Py.re_sub_non_alnum s) = true.
Proof.
  induction s as [|c r IH]; [done|]. simpl. rewrite IH, andb_true_r.
  unfold label_char. destruct (Py.is_a_z_0_9 c) eqn:Hc; [by rewrite Hc|reflexivity].
Qed.

Lemma lstrip_dash_label s :
  all_chars label_char s = true → all_chars label_char (Py.lstrip_dash s) = true.
Proof.
  induction s as [|c r IH]; [done|]. simpl. intros H.
  apply andb_true_iff in H as [Hc Hr].
  destruct (Py.is_dash c); [by apply IH|]. simpl. by rewrite Hc, Hr.
Qed.

Lemma rstrip_dash_label s :
  all_chars label_char s = true → all_chars label_char (Py.rstrip_dash s) = true.
Proof.
  induction s as [|c r IH]; [done|]. simpl. intros H.
  apply andb_true_iff in H as [Hc Hr]. specialize (IH Hr).
  destruct (Py.rstrip_dash r) as [|c' r'].
  - destruct (Py.is_dash c); [done|]. simpl. by rewrite Hc.
  - cbn [all_chars] in *. by rewrite Hc, IH.
Qed.

Lemma lstrip_dash_start s : starts_with_dash (Py.lstrip_dash s) = false.
Proof.
  induction s as [|c r IH]; [done|]. simpl.
  destruct (Py.is_dash c) eqn:Hc; [done|]. simpl. by rewrite Hc.
Qed.

Lemma rstrip_dash_end s : ends_with_dash (Py.rstrip_dash s) = false.
Proof.
  induction s as [|c r IH]; [done|]. simpl.
  destruct (Py.rstrip_dash r) as [|c' r'] eqn:Hr.
  - destruct (Py.is_dash c) eqn:Hc; [done|]. simpl. by rewrite Hc.
  - exact IH.
Qed.

Lemma rstrip_dash_start s :
  starts_with_dash s = false → starts_with_dash (Py.rstrip_dash s) = false.
Proof.
  destruct s as [|c r]; [done|]. simpl. intros Hc.
  destruct (Py.rstrip_dash r); [by rewrite Hc|by simpl].
Qed.

(** Both outcomes of [sanitize_k8s_name], the stripped text and the
    fallback, are label-safe. *)
Lemma sanitized_label_safe text : label_safe (Worker.sanitize_k8s_name text).
Proof.
  unfold Worker.sanitize_k8s_name.
  destruct (Py.truthy _) eqn:Hne; [|by repeat split].
  set (s := Py.strip_dash _) in *.
  split; [by destruct s|]. split; [|split].
  - apply rstrip_dash_label, lstrip_dash_label, re_sub_label.
  - apply rstrip_dash_start, lstrip_dash_start.
  - apply rstrip_dash_end.
Qed.

(** X3: whatever the identity, the sanitized name is non-empty, made of
    [a-z0-9-] only, and neither starts nor ends with a dash. *)
Theorem sanitize_k8s_name_label_safe text :
  label_safe (Worker.sanitize_k8s_name text).
Proof. exact (sanitized_label_safe text). Qed.

(** On a label-safe name every step of the sanitization is the identity. *)
Lemma lower_char_label c : label_char c = true → Py.lower_char c = c.
Proof. destruct c as [[] [] [] [] [] [] [] []]; vm_compute; congruence. Qed.

Lemma lower_label s : all_chars label_char s = true → Py.lower s = s.
Proof.
  induction s as [|c r IH]; [done|]. simpl. intros H.
  apply andb_true_iff in H as [Hc Hr]. by rewrite IH, lower_char_label.
Qed.

Lemma re_sub_id s : all_chars label_char s = true → Py.re_sub_non_alnum s = s.
Proof.
  induction s as [|c r IH]; [done|]. simpl. intros H.
  apply andb_true_iff in H as [Hc Hr]. rewrite IH by done. f_equal.
  unfold label_char in Hc. destruct (Py.is_a_z_0_9 c); [done|].
  simpl in Hc. by rewrite (is_dash_eq c Hc).
Qed.

Lemma lstrip_dash_id s : starts_with_dash s = false → Py.lstrip_dash s = s.
Proof. destruct s as [|c r]; [done|]. simpl. by intros ->. Qed.

Lemma rstrip_dash_id s : ends_with_dash s = false → Py.rstrip_dash s = s.
Proof.
  induction s as [|c r IH]; [done|]. simpl. intros H.
  destruct r as [|c' r'].
  - simpl. by rewrite H.
  - rewrite IH by done. reflexivity.
Qed.

Lemma sanitize_fixes_label_safe s :
  label_safe s → Worker.sanitize_k8s_name s = s.
Proof.
  intros (Hne & Hall & Hstart & Hend). unfold Worker.sanitize_k8s_name.
  rewrite lower_label, re_sub_id by done. unfold Py.strip_dash.
  rewrite lstrip_dash_id, rstrip_dash_id by done.
  by destruct s.
Qed.

(** X4: sanitizing a sanitized name changes nothing. *)
Theorem sanitize_k8s_name_idempotent text :
  Worker.sanitize_k8s_name (Worker.sanitize_k8s_name text)
  = Worker.sanitize_k8s_name text.
Proof. apply sanitize_fixes_label_safe, sanitized_label_safe. Qed.

Lemma lower_char_idempotent c : Py.lower_char (Py.lower_char c) = Py.lower_char c.
Proof. destruct c as [[] [] [] [] [] [] [] []]; reflexivity. Qed.

Lemma lower_idempotent s : Py.lower (Py.lower s) = Py.lower s.
Proof. induction s as [|c r IH]; [done|]. simpl. by rewrite IH, lower_char_idempotent. Qed.

(** X5: the sanitized name does not depend on the case of the identity, so
    identities that differ only in case share one pod name. *)
Theorem sanitize_k8s_name_ignores_case text :
  Worker.sanitize_k8s_name (Py.lower text) = Worker.sanitize_k8s_name text.
Proof. unfold Worker.sanitize_k8s_name. by rewrite lower_idempotent. Qed.

Lemma digits_of_uint_acc d :
  ∀ acc, Py.digits (Z.pos acc) true (NilEmpty.string_of_uint d)
         = Some (Z.pos (Pos.of_uint_acc d acc)).
Proof.
  induction d as [|d IH|d IH|d IH|d IH|d IH|d IH|d IH|d IH|d IH|d IH];
    intros acc; [reflexivity|..];
    cbn [NilEmpty.string_of_uint Py.digits Pos.of_uint_acc];
    (match goal with
     | |- context [Py.is_digit ?c] =>
         change (Py.is_digit c) with true; cbv iota;
         let k := eval vm_compute in (Z.of_N (Py.code c - 48)) in
         change (Z.of_N (Py.code c - 48)) with k
     end);
    rewrite <- IH; f_equal; lia.
Qed.

Lemma digits_of_uint d after :
  d ≠ Decimal.Nil →
  Py.digits 0 after (NilEmpty.string_of_uint d) = Some (Z.of_N (Pos.of_uint d)).
Proof.
  revert after.
  induction d as [|d IH|d IH|d IH|d IH|d IH|d IH|d IH|d IH|d IH|d IH];
    intros after Hne; [done|..];
    cbn [NilEmpty.string_of_uint Py.digits Pos.of_uint];
    (match goal with
     | |- context [Py.is_digit ?c] =>
         change (Py.is_digit c) with true; cbv iota;
         let k := eval vm_compute in (Z.of_N (Py.code c - 48)) in
         change (Z.of_N (Py.code c - 48)) with k
     end);
    try (change (10 * 0 + _)%Z with (Z.pos 1) ||
         change (10 * 0 + _)%Z with (Z.pos 2) ||
         change (10 * 0 + _)%Z with (Z.pos 3) ||
         change (10 * 0 + _)%Z with (Z.pos 4) ||
         change (10 * 0 + _)%Z with (Z.pos 5) ||
         change (10 * 0 + _)%Z with (Z.pos 6) ||
         change (10 * 0 + _)%Z with (Z.pos 7) ||
         change (10 * 0 + _)%Z with (Z.pos 8) ||
         change (10 * 0 + _)%Z with (Z.pos 9));
    try (rewrite digits_of_uint_acc; reflexivity).
  change (10 * 0 + 0)%Z with 0%Z.
  destruct d; [reflexivity|by apply IH..].
Qed.

Lemma string_of_uint_head d :
  d ≠ Decimal.Nil →
  ∃ c r, NilEmpty.string_of_uint d = String c r ∧ Py.is_digit c = true.
Proof. destruct d; [done|by eexists _, _..]. Qed.

Lemma lstrip_space_id s : no_space s = true → Py.lstrip_space s = s.
Proof.
  destruct s as [|c r]; [done|]. simpl. intros H.
  apply andb_true_iff in H as [Hc _]. by destruct (Py.is_space c).
Qed.

Lemma rstrip_space_id s : no_space s = true → Py.rstrip_space s = s.
Proof.
  induction s as [|c r IH]; [done|]. simpl. intros H.
  apply andb_true_iff in H as [Hc Hr]. rewrite IH by done.
  destruct r; [|done]. by destruct (Py.is_space c).
Qed.

Lemma string_of_uint_no_space d : no_space (NilEmpty.string_of_uint d) = true.
Proof. induction d; simpl; try done. Qed.

(** A printed number is worth at least its leading part times ten to the
    number of digits that follow. *)
Lemma of_uint_acc_lower d :
  ∀ acc, (Z.pos acc * 10 ^ Z.of_N (Py.count_digits (NilEmpty.string_of_uint d))
          ≤ Z.pos (Pos.of_uint_acc d acc))%Z.
Proof.
  induction d as [|d IH|d IH|d IH|d IH|d IH|d IH|d IH|d IH|d IH|d IH];
    intros acc; [simpl; lia|..];
    cbn [NilEmpty.string_of_uint Py.count_digits Pos.of_uint_acc];
    (match goal with
     | |- context [Py.is_digit ?c] => change (Py.is_digit c) with true; cbv iota
     end);
    rewrite N2Z.inj_add, Z.pow_add_r by lia;
    (match goal with
     | |- context [Pos.of_uint_acc d ?a] => specialize (IH a)
     end);
    change (10 ^ Z.of_N 1)%Z with 10%Z;
    pose proof (Z.pow_nonneg 10 (Z.of_N (Py.count_digits (NilEmpty.string_of_uint d))));
    nia.
Qed.

Lemma to_uint_normal p : Decimal.unorm (Pos.to_uint p) = Pos.to_uint p.
Proof.
  rewrite <- (DecimalPos.Unsigned.to_of (Pos.to_uint p)).
  by rewrite DecimalPos.Unsigned.of_to.
Qed.

Lemma count_digits_to_uint p :
  (Z.pos p < 10 ^ Z.of_N Py.INT_MAX_STR_DIGITS)%Z →
  (Py.count_digits (NilEmpty.string_of_uint (Pos.to_uint p)) ≤ Py.INT_MAX_STR_DIGITS)%N.
Proof.
  intros Hlt.
  pose proof (DecimalPos.Unsigned.of_to p) as Hof.
  pose proof (to_uint_normal p) as Hnorm.
  pose proof (DecimalPos.Unsigned.to_uint_nonzero p) as Hnz.
  destruct (Pos.to_uint p) as [|l|l|l|l|l|l|l|l|l|l] eqn:Hd.
  1: by destruct (DecimalPos.Unsigned.to_uint_nonnil p).
  1: { exfalso. unfold Decimal.unorm in Hnorm. cbn [Decimal.nzhead] in Hnorm.
       pose proof (DecimalFacts.nb_digits_nzhead l) as Hlen.
       destruct (Decimal.nzhead l) eqn:Hhead; [by destruct Hnz| | | | | | | | | |];
         rewrite Hnorm in Hlen; cbn [Decimal.nb_digits] in Hlen; lia. }
  all: cbn [Pos.of_uint] in Hof; injection Hof as <-;
    match type of Hlt with
    | context [Pos.of_uint_acc ?u ?k] => pose proof (of_uint_acc_lower u k) as Hlow
    end;
    revert Hlow Hlt; cbn [NilEmpty.string_of_uint Py.count_digits];
    (match goal with
     | |- context [Py.is_digit ?c] => change (Py.is_digit c) with true; cbv iota
     end);
    (match goal with
     | |- context [Py.count_digits ?s] => generalize (Py.count_digits s)
     end);
    intros n Hlow Hlt;
    assert (10 ^ Z.of_N n < 10 ^ Z.of_N Py.INT_MAX_STR_DIGITS)%Z as Hpow by lia;
    apply Z.pow_lt_mono_r_iff in Hpow; lia.
Qed.

(** The decimal text of a printable integer is an optional sign followed
    by its digits, which [int] folds back to the integer. *)
Lemma decimal_round_trip z :
  printable z → Py.int_of_str (Py.str_of_int z) = Some z.
Proof.
  unfold printable, Py.str_of_int, Py.int_of_str. intros Hfit.
  rewrite <- (DecimalZ.of_to z) at 2.
  destruct (Z.to_int z) as [d|d] eqn:Hz.
  - assert (Hd : d ≠ Decimal.Nil).
    { intros ->. destruct z; simpl in Hz; [done| |done].
      injection Hz as Hz. by apply DecimalPos.Unsigned.to_uint_nonnil in Hz. }
    assert (Hcount : (Py.count_digits (NilEmpty.string_of_uint d)
                      ≤ Py.INT_MAX_STR_DIGITS)%N).
    { destruct z as [|p|p]; simpl in Hz; [|injection Hz as <-|done].
      - injection Hz as <-. vm_compute. discriminate.
      - apply count_digits_to_uint. exact Hfit. }
    cbn [NilZero.string_of_int]. unfold NilZero.string_of_uint.
    replace (match d with Decimal.Nil => "0" | _ => NilEmpty.string_of_uint d end)
      with (NilEmpty.string_of_uint d) by (by destruct d).
    rewrite lstrip_space_id, rstrip_space_id by apply string_of_uint_no_space.
    destruct (string_of_uint_head d Hd) as (c & r & Heq & Hc).
    pose proof (digits_of_uint d false Hd) as Hdig. rewrite Heq in *.
    rewrite (proj2 (N.ltb_ge _ _) Hcount).
    assert ((Py.code c =? 45)%N = false ∧ (Py.code c =? 43)%N = false) as [-> ->].
    { unfold Py.is_digit, Py.in_range in Hc. apply andb_true_iff in Hc as [H1 H2].
      apply N.leb_le in H1, H2. split; apply N.eqb_neq; lia. }
    by rewrite Hdig.
  - assert (Hd : d ≠ Decimal.Nil).
    { intros ->. destruct z; simpl in Hz; [done|done|].
      injection Hz as Hz. by apply DecimalPos.Unsigned.to_uint_nonnil in Hz. }
    assert (Hcount : (Py.count_digits (NilEmpty.string_of_uint d)
                      ≤ Py.INT_MAX_STR_DIGITS)%N).
    { destruct z as [|p|p]; simpl in Hz; [done|done|injection Hz as <-].
      apply count_digits_to_uint. exact Hfit. }
    cbn [NilZero.string_of_int]. unfold NilZero.string_of_uint.
    replace (match d with Decimal.Nil => "0" | _ => NilEmpty.string_of_uint d end)
      with (NilEmpty.string_of_uint d) by (by destruct d).
    rewrite lstrip_space_id, rstrip_space_id
      by (simpl; apply string_of_uint_no_space).
    change (Py.count_digits (String "-" ?s)) with (Py.count_digits s).
    rewrite (proj2 (N.ltb_ge _ _) Hcount).
    change ((Py.code "-" =? 45)%N) with true. cbv iota.
    rewrite (digits_of_uint d false Hd). reflexivity.
Qed.

(** X2: a session the Gateway touched at second [t] (a second that [str]
    prints, as every reading of a float clock is), and that nobody wrote
    since, is left alone by a pass of the Reaper at second [now] when
    [now - t <= 600], and has its pod deletion attempted when
    [now - t > 600]. *)
Theorem touched_session_is_reaped_after_timeout env_g w wg env_r wr key now :
  printable (clock w ÷ 1000) →
  Gateway.touch key env_g w = (Val tt, wg) →
  observed env_r wr = redis wg →
  redis_up env_r (calls wr) = true →
  ∃ w',
    Reaper.reap_session now key env_r wr = (Val tt, w') ∧
    ((now - clock w ÷ 1000 ≤ 600)%Z →
       log w' = log wr ++ [EvHGet key "last_active"] ∧ redis w' = redis wg) ∧
    ((now - clock w ÷ 1000 > 600)%Z →
       ∃ rest,
         log w' = log wr ++
                  EvHGet key "last_active" ::
                  EvDeletePod (Reaper.pod_name_of_key key)
                    (k8s_delete env_r (S (calls wr)) (Reaper.pod_name_of_key key)) ::
                  rest).
Proof.
  intros Hfit Htouch Hobs Hup.
  assert (Hseen : Redis.hget key "last_active" (redis wg)
                  = Some (Py.str_of_int (clock w ÷ 1000))).
  { unfold Gateway.touch, bind, int_time, hset, redis_cmd in Htouch.
    destruct (redis_up env_g (calls w)); [|done].
    injection Htouch as <-. cbn [redis called]. apply hget_hset_same. }
  destruct (reap_session_run env_r wr now key) as (w' & Hrun & Hlog & Hstore).
  exists w'. split; [done|].
  unfold reap_events, last_active_seen in *. unfold observed in Hobs.
  rewrite Hup, Hobs, Hseen in *. cbn [evictable] in *.
  rewrite (decimal_round_trip _ Hfit) in *. unfold Reaper.IDLE_TIMEOUT_SECONDS in *.
  destruct (Z.gtb_spec (now - clock w ÷ 1000) 600) as [Hgt|Hle].
  - split; [lia|]. intros _. eauto.
  - split; [|lia]. intros _. split; [done|]. apply Hstore. intros H. unlisted H.
Qed.

Lemma touched_session_is_reaped_after_timeout_witness :
  ∃ w',
    Reaper.reap_session 1700 "session:bob" Scenario.quiet
      (Scenario.world
         (Redis.hset "session:bob" [("last_active", "1000")]
            (Scenario.ready "bob" "10.0.0.9" 400)) 1700000) = (Val tt, w') ∧
    (∃ rest, log w' = EvHGet "session:bob" "last_active" ::
                      EvDeletePod "session-bob" (Returns tt) :: rest).
Proof.
  assert (Hfit : printable (1000000 ÷ 1000)) by (by vm_compute).
  destruct (touched_session_is_reaped_after_timeout Scenario.quiet
              (Scenario.world (Scenario.ready "bob" "10.0.0.9" 400) 1000000) _
              Scenario.quiet
              (Scenario.world
                 (Redis.hset "session:bob" [("last_active", "1000")]
                    (Scenario.ready "bob" "10.0.0.9" 400)) 1700000)
              "session:bob" 1700 Hfit eq_refl eq_refl eq_refl)
    as (w' & Hrun & _ & Hidle).
  exists w'. split; [exact Hrun|]. apply Hidle. reflexivity.
Defined.

Lemma hset_ready_run user_id ip env w :
  ∃ out w' events,
    Worker.hset_ready (session_key_of user_id) ip env w = (out, w') ∧
    out ≠ OutOfFuel ∧ (∀ status, out ≠ Exc (ApiException status)) ∧
    log w' = log w ++ events ∧ Forall (reconcile_event user_id) events.
Proof.
  unfold Worker.hset_ready, bind, int_time.
  destruct ip as [addr|].
  - unfold hset, redis_cmd.
    destruct (redis_up env (calls w)); eexists _, _, [_];
      (split; [reflexivity|]; split; [done|]; split; [done|];
       split; [reflexivity|]);
      (constructor; [split; [reflexivity|right; eauto]|constructor]).
  - eexists _, _, []. split; [reflexivity|]. split; [done|]. split; [done|].
    by rewrite app_nil_r.
Qed.

Lemma reconcile_run user_id env w :
  ∃ out w' events,
    Worker.reconcile user_id env w = (out, w') ∧
    out ≠ OutOfFuel ∧
    log w' = log w ++ events ∧ Forall (reconcile_event user_id) events.
Proof.
  unfold Worker.reconcile, try_except, bind at 1, Worker.read_namespaced_pod, ask.
  destruct (k8s_read env (calls w) _) as [pod|e].
  - destruct (bool_decide (phase pod = "Running")).
    + destruct (hset_ready_run user_id (pod_ip pod) env
                  (called (EvReadPod (Worker.pod_name_of user_id)) 0 env w (redis w)))
        as (out & w' & events & Hrun & Hfuel & Hapi & Hlog & Hall).
      rewrite Hrun.
      assert (Hlog' : log w' = log w ++ EvReadPod (Worker.pod_name_of user_id) :: events).
      { rewrite Hlog. cbn [log called]. by rewrite <- app_assoc. }
      destruct out as [[]|e|]; [| |done].
      * eexists _, _, _. split; [reflexivity|]. split; [done|]. split; [exact Hlog'|].
        by constructor.
      * destruct e; try (by destruct (Hapi status)); eexists _, _, _;
          (split; [reflexivity|]; split; [done|]; split; [exact Hlog'|]);
          by constructor.
    + eexists _, _, [_]. split; [reflexivity|]. split; [done|].
      split; [reflexivity|]. by repeat constructor.
  - destruct e as [| |status| | | | | | |];
      try (eexists _, _, [_]; split; [reflexivity|]; split; [done|];
           split; [reflexivity|]; by repeat constructor).
    destruct (status =? 404)%Z.
    2:{ eexists _, _, [_]. split; [reflexivity|]. split; [done|].
        split; [reflexivity|]. by repeat constructor. }
    unfold bind at 1, Worker.create_namespaced_pod, ask. cbn [calls called].
    destruct (k8s_create env (S (calls w)) _) as [[]|e].
    2:{ eexists _, _, [_; _]. split; [reflexivity|]. split; [done|].
        cbn [log called]. rewrite <- app_assoc. split; [reflexivity|].
        by repeat constructor. }
    unfold bind at 1, Worker.wait_for_pod_ready, ask. cbn [calls called].
    destruct (k8s_watch env (S (S (calls w))) _) as [pods ended].
    destruct (Worker.first_addressable pods ended) as [ip|e].
    2:{ eexists _, _, [_; _; _]. split; [reflexivity|]. split; [done|].
        cbn [log called]. rewrite <- !app_assoc. split; [reflexivity|].
        by repeat constructor. }
    destruct (Py.truthy_opt ip).
    + match goal with
      | |- context [Worker.hset_ready _ _ _ ?w0] =>
          destruct (hset_ready_run user_id ip env w0)
            as (out & w' & events & Hrun & Hfuel & _ & Hlog & Hall)
      end.
      rewrite Hrun.
      exists out, w',
        ([EvReadPod (Worker.pod_name_of user_id);
          EvCreatePod (Worker.get_pod_manifest user_id
                         (Worker.sanitize_k8s_name user_id));
          EvWatchPod (Worker.pod_name_of user_id)] ++ events).
      split; [reflexivity|]. split; [done|]. split.
      * rewrite Hlog. cbn [log called]. by rewrite <- !app_assoc.
      * apply Forall_app. split; [by repeat constructor|done].
    + unfold hset, redis_cmd. cbn [calls called].
      destruct (redis_up env (S (S (S (calls w))))); eexists _, _, [_; _; _; _];
        (split; [reflexivity|]; split; [done|]);
        cbn [log called]; rewrite <- !app_assoc; (split; [reflexivity|]);
        (constructor; [done|]); (constructor; [done|]); (constructor; [done|]);
        (constructor; [split; [reflexivity|by left]|constructor]).
Qed.

Lemma usable_id_inv body user_id :
  usable_id body = Some user_id →
  ∃ members, body = Some (JObj members) ∧
             Json.get "id" members = Some (JStr user_id) ∧
             Py.truthy user_id = true.
Proof.
  destruct body as [[| | | | |members]|]; try done. simpl.
  destruct (Json.get "id" members) as [[| | |s| |]|] eqn:Hget; try done.
  destruct (Py.truthy s) eqn:Hs; [|done]. intros [= ->]. eauto.
Qed.

Lemma callback_of_user env w body user_id :
  usable_id body = Some user_id →
  Worker.on_message_callback body env w =
    match Worker.reconcile user_id env w with
    | (OutOfFuel, w1) => (OutOfFuel, w1)
    | (_, w1) => (Val tt, acked w1)
    end.
Proof.
  intros Hid. apply usable_id_inv in Hid as (members & -> & Hget & Hne).
  unfold Worker.on_message_callback, bind, try_except; simpl.
  unfold bind, ret; simpl. rewrite Hget; simpl. rewrite Hne; simpl.
  destruct (Worker.reconcile user_id env w) as [[[]|e|] w1]; reflexivity.
Qed.

(** X7: for every delivered body and every behaviour of the environment the
    callback returns, and the acknowledgement is its last call and its only
    one.  Its other calls, if any, read, create and watch the pod of the
    message's identity and write that identity's record (status "failed",
    or status "ready" with an address and [last_active]): it never deletes,
    publishes or touches another session. *)
Theorem callback_acks_once_and_only_handles_its_session body env w :
  ∃ w' events,
    Worker.on_message_callback body env w = (Val tt, w') ∧
    log w' = log w ++ events ++ [EvAck] ∧
    match usable_id body with
    | Some user_id => Forall (reconcile_event user_id) events
    | None => events = []
    end.
Proof.
  destruct (usable_id body) as [user_id|] eqn:Hid.
  - rewrite (callback_of_user _ _ _ user_id) by done.
    destruct (reconcile_run user_id env w) as (out & w1 & events & Hrun & Hfuel & Hlog & Hall).
    rewrite Hrun. exists (acked w1), events.
    split; [by destruct out|]. split; [|done].
    cbn [log acked]. by rewrite Hlog, app_assoc.
  - exists (acked w), []. split; [by apply callback_without_usable_id|]. done.
Qed.

(** X8: when the pod read returns a pod that is not Running, or fails with
    anything but a 404, the Worker creates nothing and writes nothing: it
    reads, acknowledges, and leaves the store as it was. *)
Theorem pod_is_created_only_after_404 env w body user_id :
  usable_id body = Some user_id →
  ((∃ pod, read_reply env w user_id = Returns pod ∧ phase pod ≠ "Running") ∨
   (∃ e, read_reply env w user_id = Raises e ∧ e ≠ ApiException 404)) →
  ∃ w', Worker.on_message_callback body env w = (Val tt, w') ∧
        log w' = log w ++ [EvReadPod (Worker.pod_name_of user_id); EvAck] ∧
        redis w' = redis w.
Proof.
  intros Hid Hcase. rewrite (callback_of_user _ _ _ user_id) by done.
  unfold read_reply in Hcase.
  unfold Worker.reconcile, try_except, bind at 1, Worker.read_namespaced_pod, ask.
  destruct Hcase as [(pod & -> & Hph)|(e & -> & He)].
  - rewrite bool_decide_eq_false_2 by done. cbn [ret].
    eexists. split; [reflexivity|]. cbn [log acked called redis].
    by rewrite <- app_assoc.
  - destruct e as [| |status| | | | | | |];
      try (eexists; split; [reflexivity|]; cbn [log acked called redis];
           by rewrite <- app_assoc).
    destruct (Z.eqb_spec status 404) as [->|Hne]; [done|].
    eexists. split; [reflexivity|]. cbn [log acked called redis].
    by rewrite <- app_assoc.
Qed.

Lemma pod_is_created_only_after_404_witness :
  ∃ w', Worker.on_message_callback (Scenario.message "alice")
          (Fixture.reading (Returns Fixture.pending))
          (Scenario.world (Scenario.initiating "alice") 0) = (Val tt, w') ∧
        log w' = [EvReadPod "session-alice"; EvAck] ∧
        redis w' = Scenario.initiating "alice".
Proof.
  apply (pod_is_created_only_after_404 (Fixture.reading (Returns Fixture.pending))
           (Scenario.world (Scenario.initiating "alice") 0)
           (Scenario.message "alice") "alice"); [reflexivity|].
  left. exists Fixture.pending. split; [reflexivity|]. vm_compute. discriminate.
Defined.

(** X9: when the pod read returns a Running pod with an address, the Worker
    writes status "ready", that address and the current second in one
    command, without creating or watching anything. *)
Theorem running_pod_marks_session_ready env w body user_id pod addr :
  usable_id body = Some user_id →
  read_reply env w user_id = Returns pod →
  phase pod = "Running" →
  pod_ip pod = Some addr →
  redis_up env (S (calls w)) = true →
  ∃ w' now,
    Worker.on_message_callback body env w = (Val tt, w') ∧
    now = Py.str_of_int ((clock w + 0 + Z.of_N (elapse env (calls w))) ÷ 1000) ∧
    log w' = log w ++
             [EvReadPod (Worker.pod_name_of user_id);
              EvHSet (session_key_of user_id)
                [("status", "ready"); ("ip", addr); ("last_active", now)];
              EvAck] ∧
    Redis.hget (session_key_of user_id) "status" (redis w') = Some "ready" ∧
    Redis.hget (session_key_of user_id) "ip" (redis w') = Some addr ∧
    Redis.hget (session_key_of user_id) "last_active" (redis w') = Some now.
Proof.
  intros Hid Hread Hph Hip Hup. rewrite (callback_of_user _ _ _ user_id) by done.
  unfold read_reply in Hread.
  unfold Worker.reconcile, try_except, bind at 1, Worker.read_namespaced_pod, ask.
  rewrite Hread, bool_decide_eq_true_2 by done. rewrite Hip.
  unfold Worker.hset_ready, bind, int_time. rewrite hset_up by done.
  eexists _, _. split; [reflexivity|]. split; [reflexivity|].
  cbn [log acked called redis clock calls].
  split; [by rewrite <- !app_assoc|].
  unfold Redis.hget, Redis.hset, Redis.hgetall. cbn [foldl fst snd].
  rewrite lookup_insert_eq. cbn [default from_option id].
  rewrite !lookup_insert_ne by done. rewrite !lookup_insert_eq.
  rewrite lookup_insert_ne by done. by rewrite lookup_insert_eq.
Qed.

Lemma running_pod_marks_session_ready_witness :
  ∃ w' now,
    Worker.on_message_callback (Scenario.message "alice")
      (Fixture.reading (Returns (Fixture.running "10.0.0.7")))
      (Scenario.world (Scenario.initiating "alice") 1700000000000) = (Val tt, w') ∧
    now = "1700000000" ∧
    log w' = [EvReadPod "session-alice";
              EvHSet "session:alice"
                [("status", "ready"); ("ip", "10.0.0.7"); ("last_active", now)];
              EvAck] ∧
    Redis.hget "session:alice" "status" (redis w') = Some "ready" ∧
    Redis.hget "session:alice" "ip" (redis w') = Some "10.0.0.7" ∧
    Redis.hget "session:alice" "last_active" (redis w') = Some now.
Proof.
  exact (running_pod_marks_session_ready
           (Fixture.reading (Returns (Fixture.running "10.0.0.7")))
           (Scenario.world (Scenario.initiating "alice") 1700000000000)
           (Scenario.message "alice") "alice" (Fixture.running "10.0.0.7") "10.0.0.7"
           eq_refl eq_refl eq_refl eq_refl eq_refl).
Defined.

Lemma reconcile_after_create env w user_id :
  read_reply env w user_id = Raises (ApiException 404) →
  create_reply env w user_id = Returns tt →
  Worker.reconcile user_id env w =
    match watch_reply env w user_id with
    | Returns ip =>
        (if Py.truthy_opt ip
         then Worker.hset_ready (session_key_of user_id) ip
         else hset (session_key_of user_id) [("status", "failed")])
    | Raises e => raise e
    end env
      (called (EvWatchPod (Worker.pod_name_of user_id)) 0 env
         (called (EvCreatePod (Worker.get_pod_manifest user_id
                                 (Worker.sanitize_k8s_name user_id))) 0 env
            (called (EvReadPod (Worker.pod_name_of user_id)) 0 env w (redis w))
            (redis w))
         (redis w)).
Proof.
  unfold read_reply, create_reply, watch_reply. intros Hread Hcreate.
  unfold Worker.reconcile, try_except, bind at 1, Worker.read_namespaced_pod, ask.
  rewrite Hread. change (404 =? 404)%Z with true. cbv iota.
  unfold bind at 1, Worker.create_namespaced_pod, ask. cbn [calls called].
  rewrite Hcreate.
  unfold bind at 1, Worker.wait_for_pod_ready, ask. cbn [calls called redis].
  destruct (k8s_watch env (S (S (calls w))) _) as [pods ended].
  destruct (Worker.first_addressable pods ended); reflexivity.
Qed.

(** X10: when the pod is absent (404), its creation succeeds and the watch
    reports an address, that address is non-empty and the Worker writes
    status "ready", the address and the second at which the watch returned
    in one command. *)
Theorem created_pod_marks_session_ready env w body user_id addr :
  usable_id body = Some user_id →
  read_reply env w user_id = Raises (ApiException 404) →
  create_reply env w user_id = Returns tt →
  watch_reply env w user_id = Returns (Some addr) →
  redis_up env (S (S (S (calls w)))) = true →
  ∃ w' now,
    Worker.on_message_callback body env w = (Val tt, w') ∧
    now = Py.str_of_int
            ((clock w + Z.of_N (elapse env (calls w))
                      + Z.of_N (elapse env (S (calls w)))
                      + Z.of_N (elapse env (S (S (calls w))))) ÷ 1000) ∧
    Py.truthy addr = true ∧
    log w' = log w ++
             [EvReadPod (Worker.pod_name_of user_id);
              EvCreatePod (Worker.get_pod_manifest user_id
                             (Worker.sanitize_k8s_name user_id));
              EvWatchPod (Worker.pod_name_of user_id);
              EvHSet (session_key_of user_id)
                [("status", "ready"); ("ip", addr); ("last_active", now)];
              EvAck] ∧
    Redis.hget (session_key_of user_id) "status" (redis w') = Some "ready" ∧
    Redis.hget (session_key_of user_id) "ip" (redis w') = Some addr ∧
    Redis.hget (session_key_of user_id) "last_active" (redis w') = Some now.
Proof.
  intros Hid Hread Hcreate Hwatch Hup.
  assert (Haddr : Py.truthy addr = true).
  { unfold watch_reply in Hwatch.
    destruct (k8s_watch env _ _) as [pods ended].
    by eapply first_addressable_is_nonempty. }
  rewrite (callback_of_user _ _ _ user_id) by done.
  rewrite reconcile_after_create by done. rewrite Hwatch.
  cbn [Py.truthy_opt]. rewrite Haddr.
  unfold Worker.hset_ready, bind, int_time. rewrite hset_up by done.
  cbn [clock called calls].
  replace (clock w + 0 + Z.of_N (elapse env (calls w)) + 0
           + Z.of_N (elapse env (S (calls w))) + 0
           + Z.of_N (elapse env (S (S (calls w)))))%Z
    with (clock w + Z.of_N (elapse env (calls w))
          + Z.of_N (elapse env (S (calls w)))
          + Z.of_N (elapse env (S (S (calls w)))))%Z by lia.
  eexists _, _. split; [reflexivity|]. split; [reflexivity|]. split; [done|].
  cbn [log acked called redis clock calls].
  split; [by rewrite <- !app_assoc|].
  unfold Redis.hget, Redis.hset, Redis.hgetall. cbn [foldl fst snd].
  rewrite lookup_insert_eq. cbn [default from_option id].
  rewrite !lookup_insert_ne by done. rewrite !lookup_insert_eq.
  rewrite lookup_insert_ne by done. by rewrite lookup_insert_eq.
Qed.

Lemma created_pod_marks_session_ready_witness :
  ∃ w' now,
    Worker.on_message_callback (Scenario.message "alice")
      (Fixture.watching [Fixture.pending; Fixture.running "10.0.0.7"] None)
      (Scenario.world (Scenario.initiating "alice") 1700000000000) = (Val tt, w') ∧
    now = "1700000000" ∧
    Py.truthy "10.0.0.7" = true ∧
    log w' = [EvReadPod "session-alice";
              EvCreatePod (Worker.get_pod_manifest "alice" "alice");
              EvWatchPod "session-alice";
              EvHSet "session:alice"
                [("status", "ready"); ("ip", "10.0.0.7"); ("last_active", now)];
              EvAck] ∧
    Redis.hget "session:alice" "status" (redis w') = Some "ready" ∧
    Redis.hget "session:alice" "ip" (redis w') = Some "10.0.0.7" ∧
    Redis.hget "session:alice" "last_active" (redis w') = Some now.
Proof.
  exact (created_pod_marks_session_ready
           (Fixture.watching [Fixture.pending; Fixture.running "10.0.0.7"] None)
           (Scenario.world (Scenario.initiating "alice") 1700000000000)
           (Scenario.message "alice") "alice" "10.0.0.7"
           eq_refl eq_refl eq_refl eq_refl eq_refl).
Defined.

(** X11: when the pod is absent, its creation succeeds and the watch ends
    without an addressable pod, the Worker writes status "failed" and
    leaves the address and [last_active] of the record as they were. *)
Theorem watch_timeout_marks_session_failed env w body user_id :
  usable_id body = Some user_id →
  read_reply env w user_id = Raises (ApiException 404) →
  create_reply env w user_id = Returns tt →
  watch_reply env w user_id = Returns None →
  redis_up env (S (S (S (calls w)))) = true →
  ∃ w' found,
    Worker.on_message_callback body env w = (Val tt, w') ∧
    found = interfere env (S (S (S (calls w)))) (redis w) ∧
    redis w' = Redis.hset (session_key_of user_id) [("status", "failed")] found ∧
    Redis.hget (session_key_of user_id) "status" (redis w') = Some "failed" ∧
    Redis.hget (session_key_of user_id) "ip" (redis w')
      = Redis.hget (session_key_of user_id) "ip" found ∧
    Redis.hget (session_key_of user_id) "last_active" (redis w')
      = Redis.hget (session_key_of user_id) "last_active" found.
Proof.
  intros Hid Hread Hcreate Hwatch Hup.
  rewrite (callback_of_user _ _ _ user_id) by done.
  rewrite reconcile_after_create by done. rewrite Hwatch.
  cbn [Py.truthy_opt]. rewrite hset_up by done.
  eexists _, _. split; [reflexivity|]. split; [reflexivity|].
  cbn [acked called redis calls].
  split; [reflexivity|]. split; [apply hget_hset_same|].
  split; by apply hget_hset_other.
Qed.

Lemma watch_timeout_marks_session_failed_witness :
  ∃ w', Worker.on_message_callback (Scenario.message "alice")
          (Fixture.watching [Fixture.pending] None)
          (Scenario.world (Scenario.initiating "alice") 0) = (Val tt, w') ∧
        Redis.hget "session:alice" "status" (redis w') = Some "failed".
Proof.
  destruct (watch_timeout_marks_session_failed
              (Fixture.watching [Fixture.pending] None)
              (Scenario.world (Scenario.initiating "alice") 0)
              (Scenario.message "alice") "alice"
              eq_refl eq_refl eq_refl eq_refl eq_refl)
    as (w' & found & Hrun & _ & _ & Hst & _).
  exists w'. exact (conj Hrun Hst).
Defined.

(** X12: when the watch stream raises, the Worker writes nothing (not even
    "failed") and acknowledges the message. *)
Theorem watch_error_leaves_session_unwritten env w body user_id e :
  usable_id body = Some user_id →
  read_reply env w user_id = Raises (ApiException 404) →
  create_reply env w user_id = Returns tt →
  watch_reply env w user_id = Raises e →
  ∃ w',
    Worker.on_message_callback body env w = (Val tt, w') ∧
    redis w' = redis w ∧
    log w' = log w ++
             [EvReadPod (Worker.pod_name_of user_id);
              EvCreatePod (Worker.get_pod_manifest user_id
                             (Worker.sanitize_k8s_name user_id));
              EvWatchPod (Worker.pod_name_of user_id);
              EvAck].
Proof.
  intros Hid Hread Hcreate Hwatch.
  rewrite (callback_of_user _ _ _ user_id) by done.
  rewrite reconcile_after_create by done. rewrite Hwatch.
  eexists. split; [reflexivity|]. cbn [log acked called redis raise].
  split; [done|]. by rewrite <- !app_assoc.
Qed.

Lemma watch_error_leaves_session_unwritten_witness :
  ∃ w', Worker.on_message_callback (Scenario.message "alice")
          (Fixture.watching [Fixture.pending] (Some OtherError))
          (Scenario.world (Scenario.initiating "alice") 0) = (Val tt, w') ∧
        redis w' = Scenario.initiating "alice" ∧
        log w' = [EvReadPod "session-alice";
                  EvCreatePod (Worker.get_pod_manifest "alice" "alice");
                  EvWatchPod "session-alice";
                  EvAck].
Proof.
  exact (watch_error_leaves_session_unwritten
           (Fixture.watching [Fixture.pending] (Some OtherError))
           (Scenario.world (Scenario.initiating "alice") 0)
           (Scenario.message "alice") "alice" OtherError
           eq_refl eq_refl eq_refl eq_refl).
Defined.

(** X13: [wait_for_pod_ready] returns the address of the first event that is
    Running with a non-empty address, whatever follows it; when no event
    qualifies it returns [None], or raises what the stream raised. *)
Theorem wait_scans_events_in_order before pod after ended :
  Forall (fun p => addressable p = false) before →
  (addressable pod = true →
   Worker.first_addressable (before ++ pod :: after) ended = Returns (pod_ip pod)) ∧
  Worker.first_addressable before ended
  = match ended with Some e => Raises e | None => Returns None end.
Proof.
  intros Hbefore. induction Hbefore as [|p before Hp _ [IH1 IH2]]; simpl.
  - split; [|done]. unfold addressable. by intros ->.
  - unfold addressable in Hp. by rewrite Hp.
Qed.

Lemma wait_scans_events_in_order_witness :
  Worker.first_addressable
    ([Fixture.pending; {| phase := "Running"; pod_ip := None |}] ++
     Fixture.running "10.0.0.7" :: [Fixture.running "10.0.0.8"]) None
  = Returns (Some "10.0.0.7").
Proof.
  apply (wait_scans_events_in_order
           [Fixture.pending; {| phase := "Running"; pod_ip := None |}]
           (Fixture.running "10.0.0.7") [Fixture.running "10.0.0.8"] None);
    [|reflexivity].
  repeat constructor.
Defined.

(** X14: a request whose X-User-ID header is missing or empty is answered
    400 before any external call: no Redis command, no message. *)
Theorem request_without_user_is_refused env w request depth polls :
  Py.truthy_opt (Gateway.header_get "X-User-ID" (req_headers request)) = false →
  Gateway.handle_all_requests (S depth) polls request env w
  = (Val (Plain "X-User-ID header is required." 400), w).
Proof.
  intros H. cbn [Gateway.handle_all_requests]. unfold Gateway.handler_body.
  destruct (Gateway.header_get _ _) as [user_id|]; [|done].
  cbn [Py.truthy_opt] in H. by rewrite H.
Qed.

Lemma request_without_user_is_refused_witness :
  Gateway.handle_all_requests 1 0 Fixture.unsigned_get Scenario.quiet
    (Scenario.world (Scenario.initiating "alice") 0)
  = (Val (Plain "X-User-ID header is required." 400),
     Scenario.world (Scenario.initiating "alice") 0).
Proof.
  exact (request_without_user_is_refused Scenario.quiet
           (Scenario.world (Scenario.initiating "alice") 0)
           Fixture.unsigned_get 0 0 eq_refl).
Defined.

(** X15: when the first read of the record cannot reach Redis the Gateway
    answers 503 and attempts nothing else. *)
Theorem unreachable_store_answers_503 env w request depth polls user_id :
  Gateway.header_get "X-User-ID" (req_headers request) = Some user_id →
  Py.truthy user_id = true →
  redis_up env (calls w) = false →
  ∃ w',
    Gateway.handle_all_requests (S depth) polls request env w
      = (Val (Plain "Gateway service is down: Cannot connect to Redis." 503), w') ∧
    log w' = log w ++ [EvHGetAll (session_key_of user_id)].
Proof.
  intros Hhdr Hid Hdown. rewrite (handler_of_user _ _ _ user_id) by done.
  unfold Gateway.dispatch, try_except, bind, hgetall, redis_cmd. rewrite Hdown.
  eexists. split; reflexivity.
Qed.

Lemma unreachable_store_answers_503_witness :
  ∃ w',
    Gateway.handle_all_requests 1 0 (Scenario.get "alice" "/")
      (Fixture.serving (Returns Fixture.page) 0)
      (Scenario.world (Scenario.initiating "alice") 0)
      = (Val (Plain "Gateway service is down: Cannot connect to Redis." 503), w') ∧
    log w' = [EvHGetAll "session:alice"].
Proof.
  exact (unreachable_store_answers_503 (Fixture.serving (Returns Fixture.page) 0)
           (Scenario.world (Scenario.initiating "alice") 0)
           (Scenario.get "alice" "/") 0 0 "alice" eq_refl eq_refl eq_refl).
Defined.

(** X16: a record that says "ready" but has no (or an empty) address is
    answered 500 after the one read: no touch, no proxy call. *)
Theorem ready_without_address_answers_500 env w request depth polls user_id :
  Gateway.header_get "X-User-ID" (req_headers request) = Some user_id →
  Py.truthy user_id = true →
  redis_up env (calls w) = true →
  Redis.hget (session_key_of user_id) "status" (observed env w) = Some "ready" →
  Py.truthy_opt (Redis.hget (session_key_of user_id) "ip" (observed env w)) = false →
  Gateway.handle_all_requests (S depth) polls request env w
  = (Val (Plain "Session 'ready' but no IP. Please retry." 500),
     after_hgetall env w (session_key_of user_id)).
Proof.
  intros Hhdr Hid Hup Hst Hip. rewrite (handler_of_user _ _ _ user_id) by done.
  unfold Gateway.dispatch, try_except, bind at 1. rewrite hgetall_up by done.
  unfold observed, Redis.hget in Hst, Hip. rewrite Hst, Hip.
  by rewrite bool_decide_eq_true_2.
Qed.

Lemma ready_without_address_answers_500_witness :
  Gateway.handle_all_requests 1 0 (Scenario.get "alice" "/") Scenario.quiet
    (Scenario.world (Fixture.only_status "alice" "ready") 0)
  = (Val (Plain "Session 'ready' but no IP. Please retry." 500),
     after_hgetall Scenario.quiet
       (Scenario.world (Fixture.only_status "alice" "ready") 0) "session:alice").
Proof.
  exact (ready_without_address_answers_500 Scenario.quiet
           (Scenario.world (Fixture.only_status "alice" "ready") 0)
           (Scenario.get "alice" "/") 0 0 "alice"
           eq_refl eq_refl eq_refl eq_refl eq_refl).
Defined.

(** X17: a status other than "ready", "initiating" and "failed" matches no
    branch: the handler returns nothing (served as a JSON null) after the
    one read. *)
Theorem unknown_status_falls_through env w request depth polls user_id status :
  Gateway.header_get "X-User-ID" (req_headers request) = Some user_id →
  Py.truthy user_id = true →
  redis_up env (calls w) = true →
  Redis.hget (session_key_of user_id) "status" (observed env w) = Some status →
  status ≠ "ready" → status ≠ "initiating" → status ≠ "failed" →
  Gateway.handle_all_requests (S depth) polls request env w
  = (Val JsonNull, after_hgetall env w (session_key_of user_id)).
Proof.
  intros Hhdr Hid Hup Hst H1 H2 H3. rewrite (handler_of_user _ _ _ user_id) by done.
  unfold Gateway.dispatch, try_except, bind at 1. rewrite hgetall_up by done.
  unfold observed, Redis.hget in Hst. rewrite Hst.
  by rewrite !bool_decide_eq_false_2 by congruence.
Qed.

Lemma unknown_status_falls_through_witness :
  Gateway.handle_all_requests 1 0 (Scenario.get "alice" "/") Scenario.quiet
    (Scenario.world (Fixture.only_status "alice" "draining") 0)
  = (Val JsonNull,
     after_hgetall Scenario.quiet
       (Scenario.world (Fixture.only_status "alice" "draining") 0) "session:alice").
Proof.
  apply (unknown_status_falls_through Scenario.quiet
           (Scenario.world (Fixture.only_status "alice" "draining") 0)
           (Scenario.get "alice" "/") 0 0 "alice" "draining");
    try reflexivity; discriminate.
Defined.

Lemma dispatch_ready_touched env w request polls user_id again addr :
  redis_up env (calls w) = true →
  redis_up env (S (calls w)) = true →
  Redis.hget (session_key_of user_id) "status" (observed env w) = Some "ready" →
  Redis.hget (session_key_of user_id) "ip" (observed env w) = Some addr →
  Py.truthy addr = true →
  Gateway.dispatch polls request user_id again env w =
    try_except (Gateway.proxy_request (Some addr) request) Gateway.on_exception env
      (after_touch env w (session_key_of user_id)).
Proof.
  intros Hup0 Hup1 Hst Hip Haddr.
  unfold Gateway.dispatch, try_except at 1 2, bind at 1. rewrite hgetall_up by done.
  unfold observed, Redis.hget in Hst, Hip. rewrite Hst, Hip.
  rewrite bool_decide_eq_true_2 by done. cbn [Py.truthy_opt]. rewrite Haddr. cbn [negb].
  unfold Gateway.touch. unfold bind at 1. unfold bind at 1. unfold int_time.
  rewrite hset_up by done. reflexivity.
Qed.



(** X19: an exception of the proxy call that is not an httpx request error
    escapes [proxy_request] and is answered 500 by the handler, after the
    touch. *)
Theorem proxy_fault_other_than_transport_answers_500
    env w request depth polls user_id addr e :
  Gateway.header_get "X-User-ID" (req_headers request) = Some user_id →
  Py.truthy user_id = true →
  redis_up env (calls w) = true →
  redis_up env (S (calls w)) = true →
  Redis.hget (session_key_of user_id) "status" (observed env w) = Some "ready" →
  Redis.hget (session_key_of user_id) "ip" (observed env w) = Some addr →
  Py.truthy addr = true →
  upstream env (S (S (calls w))) (Gateway.proxy_call (Some addr) request) = Raises e →
  e ≠ HttpxRequestError → e ≠ RedisConnectionError →
  ∃ w',
    Gateway.handle_all_requests (S depth) polls request env w
      = (Val (InternalError e), w') ∧
    status_of (InternalError e) = 500%Z ∧
    log w' = log (after_touch env w (session_key_of user_id)) ++
             [EvProxy (Gateway.proxy_call (Some addr) request)].
Proof.
  intros Hhdr Hid Hup0 Hup1 Hst Hip Haddr Hreply He He'.
  rewrite (handler_of_user _ _ _ user_id) by done.
  rewrite (dispatch_ready_touched _ _ _ _ _ _ addr) by done.
  unfold Gateway.proxy_request, try_except, bind, Gateway.send, ask.
  unfold after_touch, after_hgetall. cbn [calls called clock]. rewrite Hreply.
  destruct e; try done; eexists; (split; [reflexivity|]); split; reflexivity.
Qed.

Lemma proxy_fault_other_than_transport_answers_500_witness :
  ∃ w',
    Gateway.handle_all_requests 1 0 (Scenario.get "alice" "/y")
      (Fixture.serving (Raises OtherError) 5)
      (Scenario.world (Scenario.ready "alice" "10.0.0.7" 100) 200000)
      = (Val (InternalError OtherError), w').
Proof.
  assert (H1 : OtherError ≠ HttpxRequestError) by discriminate.
  assert (H2 : OtherError ≠ RedisConnectionError) by discriminate.
  destruct (proxy_fault_other_than_transport_answers_500
              (Fixture.serving (Raises OtherError) 5)
              (Scenario.world (Scenario.ready "alice" "10.0.0.7" 100) 200000)
              (Scenario.get "alice" "/y") 0 0 "alice" "10.0.0.7" OtherError
              eq_refl eq_refl eq_refl eq_refl eq_refl eq_refl eq_refl eq_refl H1 H2)
    as (w' & Hrun & _).
  exists w'. exact Hrun.
Defined.

(** X20: when the touch cannot reach Redis the request is answered 503 and
    the pod is not called. *)
Theorem failed_touch_answers_503_without_proxying env w request depth polls user_id addr :
  Gateway.header_get "X-User-ID" (req_headers request) = Some user_id →
  Py.truthy user_id = true →
  redis_up env (calls w) = true →
  redis_up env (S (calls w)) = false →
  Redis.hget (session_key_of user_id) "status" (observed env w) = Some "ready" →
  Redis.hget (session_key_of user_id) "ip" (observed env w) = Some addr →
  Py.truthy addr = true →
  ∃ w' now,
    Gateway.handle_all_requests (S depth) polls request env w
      = (Val (Plain "Gateway service is down: Cannot connect to Redis." 503), w') ∧
    log w' = log w ++
             [EvHGetAll (session_key_of user_id);
              EvHSet (session_key_of user_id) [("last_active", now)]].
Proof.
  intros Hhdr Hid Hup0 Hup1 Hst Hip Haddr.
  rewrite (handler_of_user _ _ _ user_id) by done.
  unfold Gateway.dispatch, try_except at 1, bind at 1. rewrite hgetall_up by done.
  unfold observed, Redis.hget in Hst, Hip. rewrite Hst, Hip.
  rewrite bool_decide_eq_true_2 by done. cbn [Py.truthy_opt]. rewrite Haddr. cbn [negb].
  unfold Gateway.touch, bind, int_time, hset, redis_cmd. cbn [calls called].
  rewrite Hup1.
  eexists _, _. split; [reflexivity|]. cbn [log called]. by rewrite <- app_assoc.
Qed.

Lemma failed_touch_answers_503_without_proxying_witness :
  ∃ w' now,
    Gateway.handle_all_requests 1 0 (Scenario.get "alice" "/y")
      (Fixture.serving (Returns Fixture.page) 1)
      (Scenario.world (Scenario.ready "alice" "10.0.0.7" 100) 200000)
      = (Val (Plain "Gateway service is down: Cannot connect to Redis." 503), w') ∧
    log w' = [EvHGetAll "session:alice";
              EvHSet "session:alice" [("last_active", now)]].
Proof.
  exact (failed_touch_answers_503_without_proxying
           (Fixture.serving (Returns Fixture.page) 1)
           (Scenario.world (Scenario.ready "alice" "10.0.0.7" 100) 200000)
           (Scenario.get "alice" "/y") 0 0 "alice" "10.0.0.7"
           eq_refl eq_refl eq_refl eq_refl eq_refl eq_refl eq_refl).
Defined.

Lemma dict_get_set k k' v d :
  dict_get k (Gateway.dict_set k' v d)
  = if bool_decide (k' = k) then Some v else dict_get k d.
Proof.
  induction d as [|[k0 v0] d IH]; simpl.
  - done.
  - destruct (decide (k0 = k')) as [->|Hne].
    + rewrite bool_decide_eq_true_2 by done. simpl. by case_bool_decide.
    + rewrite (bool_decide_eq_false_2 (k0 = k')) by done. simpl. rewrite IH.
      repeat case_bool_decide; congruence.
Qed.

Lemma last_value_snoc k headers k' v :
  last_value k (headers ++ [(k', v)])
  = if bool_decide (k' = k) then Some v else last_value k headers.
Proof.
  induction headers as [|[k0 v0] headers IH]; simpl.
  - done.
  - rewrite IH. repeat case_bool_decide; congruence.
Qed.

Lemma dict_get_comprehension k headers :
  dict_get k
    (foldl (fun d kv => if bool_decide (Py.lower kv.1 = "host") then d
                        else Gateway.dict_set kv.1 kv.2 d) [] headers)
  = if bool_decide (Py.lower k = "host") then None else last_value k headers.
Proof.
  induction headers as [|[k' v] headers IH] using rev_ind.
  - simpl. by case_bool_decide.
  - rewrite foldl_app, last_value_snoc. cbn [foldl fst snd].
    destruct (decide (Py.lower k' = "host")) as [Hh|Hh].
    + rewrite (bool_decide_eq_true_2 _ Hh), IH.
      repeat case_bool_decide; congruence.
    + rewrite (bool_decide_eq_false_2 _ Hh), dict_get_set, IH.
      repeat case_bool_decide; congruence.
Qed.

(** X21: in the headers sent to the pod, "host" is the pod's address, no
    other spelling of Host survives, and every other name carries the
    value of its last occurrence in the request. *)
Theorem proxy_replaces_host_and_forwards_the_rest pod_ip request k :
  dict_get k (pc_headers (Gateway.proxy_call pod_ip request))
  = if bool_decide (k = "host") then Some (Py.fmt_opt pod_ip)
    else if bool_decide (Py.lower k = "host") then None
    else last_value k (req_headers request).
Proof.
  unfold Gateway.proxy_call, Gateway.forwarded_headers. cbn [pc_headers].
  rewrite dict_get_set, dict_get_comprehension.
  repeat case_bool_decide; congruence.
Qed.

(** X22: unlike the ready branch, the long poll does not test the address:
    when a poll reads "ready" and the address is then missing, the Gateway
    still writes [last_active] and calls http://None:80 with Host "None". *)
Theorem long_poll_proxies_without_address_check
    env w request key t0 polls w1 :
  (clock w - t0 < 90000)%Z →
  poll key env w = (Val (Some "ready"), w1) →
  redis_up env (calls w1) = true →
  Redis.hget key "ip" (observed env w1) = None →
  redis_up env (S (calls w1)) = true →
  ∃ out w' now,
    Gateway.long_poll (S polls) request key t0 env w = (out, w') ∧
    log w' = log w1 ++
             [EvHGet key "ip"; EvHSet key [("last_active", now)];
              EvProxy (Gateway.proxy_call None request)] ∧
    pc_url (Gateway.proxy_call None request) = "http://None:80" +:+ req_path request ∧
    dict_get "host" (pc_headers (Gateway.proxy_call None request)) = Some "None".
Proof.
  intros Hlt Hpoll Hup0 Hip Hup1.
  rewrite long_poll_unfold, Hpoll.
  rewrite (proj2 (Z.ltb_lt _ _) Hlt), bool_decide_eq_true_2 by done.
  unfold touch_and_proxy, bind at 1. rewrite hget_up by done.
  unfold observed in Hip. rewrite Hip.
  unfold bind at 1, Gateway.touch, bind at 1, int_time. rewrite hset_up by done.
  unfold Gateway.proxy_request, try_except, bind, Gateway.send, ask.
  cbn [calls called].
  destruct (upstream _ _ _) as [u|e]; [|destruct e];
    eexists _, _, _; (split; [reflexivity|]); cbn [log called raise ret];
    rewrite <- !app_assoc; (split; [reflexivity|]; split; [reflexivity|]);
    unfold Gateway.proxy_call, Gateway.forwarded_headers; cbn [pc_headers];
    by rewrite dict_get_set.
Qed.

Lemma long_poll_proxies_without_address_check_witness :
  ∃ out w',
    Gateway.long_poll 1 (Scenario.get "alice" "/x") "session:alice" 0
      Scenario.quiet (Scenario.world (Fixture.only_status "alice" "ready") 0)
    = (out, w') ∧
    pc_url (Gateway.proxy_call None (Scenario.get "alice" "/x")) = "http://None:80/x".
Proof.
  destruct (long_poll_proxies_without_address_check Scenario.quiet
              (Scenario.world (Fixture.only_status "alice" "ready") 0)
              (Scenario.get "alice" "/x") "session:alice" 0%Z 0 _
              eq_refl eq_refl eq_refl eq_refl eq_refl)
    as (out & w' & now & Hrun & _ & Hurl & _).
  exists out, w'. exact (conj Hrun Hurl).
Defined.

(** *** The calls of a pass, record by record *)

Lemma log_scanned env now w key :
  log (scanned env now w key) = log w ++ reap_events env w now key.
Proof.
  unfold scanned, evicted, reap_events. cbn [calls called].
  destruct (evictable _ _); [|reflexivity].
  destruct (delete_tolerated _); cbn [log called]; by rewrite <- !app_assoc.
Qed.

Lemma foldl_scanned_events env now keys :
  ∀ w, ∃ runs, pass_events env now keys runs ∧
               log (foldl (scanned env now) w keys) = log w ++ concat runs.
Proof.
  induction keys as [|key keys IH]; intros w.
  - exists []. split; [constructor|]. simpl. by rewrite app_nil_r.
  - destruct (IH (scanned env now w key)) as (runs & Hruns & Hlog).
    exists (reap_events env w now key :: runs). split; [by constructor|].
    cbn [foldl concat]. by rewrite Hlog, log_scanned, <- app_assoc.
Qed.

Lemma reap_events_del env w now key k :
  EvDel k ∈ reap_events env w now key → k = key.
Proof.
  unfold reap_events. intros H.
  apply elem_of_cons in H as [H|H]; [discriminate H|].
  destruct (evictable _ _); [|by apply elem_of_nil in H].
  apply elem_of_cons in H as [H|H]; [discriminate H|].
  destruct (delete_tolerated _); [|by apply elem_of_nil in H].
  apply elem_of_cons in H as [H|H]; [by injection H|by apply elem_of_nil in H].
Qed.

Lemma reap_events_hget env w now key k f :
  EvHGet k f ∈ reap_events env w now key → k = key.
Proof.
  unfold reap_events. intros H.
  apply elem_of_cons in H as [H|H]; [by injection H|].
  destruct (evictable _ _); [|by apply elem_of_nil in H].
  apply elem_of_cons in H as [H|H]; [discriminate H|].
  destruct (delete_tolerated _); [|by apply elem_of_nil in H].
  apply elem_of_cons in H as [H|H]; [discriminate H|by apply elem_of_nil in H].
Qed.

Lemma pass_events_del env now keys runs k :
  pass_events env now keys runs → EvDel k ∈ concat runs → k ∈ keys.
Proof.
  induction 1 as [|w key keys runs _ IH]; cbn [concat]; intros H.
  - by apply elem_of_nil in H.
  - apply elem_of_app in H as [H|H].
    + apply reap_events_del in H as ->. apply list_elem_of_here.
    + apply list_elem_of_further. by apply IH.
Qed.

Lemma pass_events_hget env now keys runs k f :
  pass_events env now keys runs → EvHGet k f ∈ concat runs → k ∈ keys.
Proof.
  induction 1 as [|w key keys runs _ IH]; cbn [concat]; intros H.
  - by apply elem_of_nil in H.
  - apply elem_of_app in H as [H|H].
    + apply reap_events_hget in H as ->. apply list_elem_of_here.
    + apply list_elem_of_further. by apply IH.
Qed.

Lemma pass_events_head env now keys runs ev rest :
  pass_events env now keys runs → concat runs = ev :: rest →
  ∃ k, ev = EvHGet k "last_active".
Proof.
  destruct 1 as [|w key keys runs _]; cbn [concat]; [done|].
  unfold reap_events. cbn [app]. intros [= <- _]. eauto.
Qed.

Lemma in_middle {A} (pre post : list A) x : x ∈ pre ++ x :: post.
Proof. apply elem_of_app. right. apply list_elem_of_here. Qed.

Lemma reap_events_shape env w now key :
  let read := EvHGet key "last_active" in
  reap_events env w now key = [read] ∨
  (∃ name reply, reap_events env w now key = [read; EvDeletePod name reply] ∧
                 delete_tolerated reply = false) ∨
  (∃ name reply, reap_events env w now key = [read; EvDeletePod name reply; EvDel key] ∧
                 delete_tolerated reply = true).
Proof.
  unfold reap_events. cbv zeta.
  destruct (evictable _ _); [|by left].
  destruct (delete_tolerated _) eqn:Hok; right; [right|left]; eauto.
Qed.

(** When the deletion of a record's sandbox fails, the pass deletes that
    record nowhere. *)
Lemma pass_keeps_record_after_failure env now keys runs :
  pass_events env now keys runs → NoDup keys →
  ∀ pre key name reply post,
    concat runs = pre ++ EvHGet key "last_active" :: EvDeletePod name reply :: post →
    delete_tolerated reply = false →
    EvDel key ∉ concat runs.
Proof.
  induction 1 as [|w key0 keys runs Hruns IH]; intros Hnodup pre key name reply post Heq Hfail.
  { by destruct pre. }
  apply NoDup_cons in Hnodup as [Hfresh Hnodup].
  cbn [concat] in *. intros Hin.
  assert (Hrest : ∀ pre', concat runs = pre' ++ EvHGet key "last_active" ::
                                       EvDeletePod name reply :: post →
                          False).
  { intros pre' Heq'.
    assert (Hkey : key ∈ keys).
    { eapply pass_events_hget; [done|]. rewrite Heq'. apply in_middle. }
    apply elem_of_app in Hin as [Hin|Hin].
    - apply reap_events_del in Hin as ->. done.
    - by eapply IH. }
  destruct (reap_events_shape env w now key0)
    as [Hseg|[(n & r & Hseg & Hr)|(n & r & Hseg & Hr)]];
    rewrite Hseg in Heq, Hin; clear Hseg; cbn [app] in Heq.
  - destruct pre as [|x pre]; cbn [app] in Heq.
    + injection Heq as _ Heq.
      destruct (pass_events_head _ _ _ _ _ _ Hruns Heq) as [k Hk]. discriminate Hk.
    + injection Heq as _ Heq. by eapply Hrest.
  - destruct pre as [|x [|y pre]]; cbn [app] in Heq; [|by simplify_eq|].
    + assert (key0 = key) as -> by (by simplify_eq).
      apply elem_of_app in Hin as [Hin|Hin].
      * apply elem_of_cons in Hin as [Hin|Hin]; [discriminate Hin|].
        apply elem_of_cons in Hin as [Hin|Hin]; [discriminate Hin|].
        by apply elem_of_nil in Hin.
      * apply Hfresh. by eapply pass_events_del.
    + assert (concat runs = pre ++ EvHGet key "last_active" ::
                            EvDeletePod name reply :: post) by (by simplify_eq).
      by eapply Hrest.
  - destruct pre as [|x [|y [|z pre]]]; cbn [app] in Heq;
      [|by simplify_eq|by simplify_eq|].
    + assert (r = reply) as -> by (by simplify_eq). congruence.
    + assert (concat runs = pre ++ EvHGet key "last_active" ::
                            EvDeletePod name reply :: post) by (by simplify_eq).
      by eapply Hrest.
Qed.

Lemma keys_session_nodup s : NoDup (Redis.keys_session s).
Proof. unfold Redis.keys_session. apply NoDup_filter, NoDup_fst_map_to_list. Qed.

(** X26: in every tick, whatever the environment does, a record is deleted
    only as the call right after a deletion of the pod the Reaper names
    after its key that succeeded or answered 404; and when the deletion of
    a record's pod fails otherwise, no call of the tick deletes that
    record. *)
Theorem record_is_deleted_only_after_its_pod env w :
  ∃ ok w' events,
    Reaper.tick env w = (Val ok, w') ∧
    log w' = log w ++ events ∧
    record_deletes_follow_pod_deletes events ∧
    (∀ pre key name reply post,
       events = pre ++ EvHGet key "last_active" :: EvDeletePod name reply :: post →
       delete_tolerated reply = false →
       EvDel key ∉ events).
Proof.
  destruct (tick_run env w) as (ok & w' & events & Hrun & Hlog & Hfollow).
  exists ok, w', events. split; [done|]. split; [done|]. split; [done|].
  intros pre key name reply post Heq Hfail.
  rewrite tick_scans in Hrun.
  destruct (redis_up env (calls w)).
  - apply (f_equal snd) in Hrun. cbn [snd] in Hrun. subst w'.
    destruct (foldl_scanned_events env (clock (after_keys env w) ÷ 1000)
                (Redis.keys_session (observed env w)) (after_keys env w))
      as (runs & Hruns & Hlog').
    rewrite Hlog' in Hlog. unfold after_keys in Hlog. cbn [log called] in Hlog.
    rewrite <- app_assoc in Hlog. apply app_inv_head in Hlog. cbn [app] in Hlog.
    subst events. destruct pre as [|x pre]; [discriminate Heq|].
    injection Heq as _ Heq. intros Hin.
    apply elem_of_cons in Hin as [Hin|Hin]; [discriminate Hin|].
    by eapply (pass_keeps_record_after_failure _ _ _ _ Hruns
                 (keys_session_nodup _)).
  - apply (f_equal snd) in Hrun. cbn [snd] in Hrun. subst w'.
    unfold after_keys in Hlog. cbn [log called] in Hlog.
    apply app_inv_head in Hlog. subst events.
    by destruct pre as [|? [|? ?]].
Qed.

Lemma reap_events_reaper env w now key :
  Forall reaper_event (reap_events env w now key).
Proof.
  unfold reap_events. destruct (evictable _ _); [|by repeat constructor].
  destruct (delete_tolerated _); by repeat constructor.
Qed.

Lemma for_each_reaper_events env now keys :
  ∀ w, ∃ w' events,
    Reaper.for_each keys (Reaper.reap_session now) env w = (Val tt, w') ∧
    log w' = log w ++ events ∧ Forall reaper_event events.
Proof.
  induction keys as [|key keys IH]; intros w.
  - exists w, []. simpl. by rewrite app_nil_r.
  - destruct (reap_session_run env w now key) as (w1 & Hrun & Hlog & _).
    destruct (IH w1) as (w2 & events & Hrest & Hlog2 & Hall).
    exists w2, (reap_events env w now key ++ events).
    cbn [Reaper.for_each]. unfold bind. rewrite Hrun, Hrest, Hlog2, Hlog, app_assoc.
    split; [done|]. split; [done|].
    apply Forall_app. split; [apply reap_events_reaper|done].
Qed.

(** X23: a pass of the Reaper only lists the session keys, reads
    [last_active] fields, deletes pods and deletes keys; it never writes a
    field.  It takes the "main loop error" path exactly when the listing of
    the keys itself fails, and then does nothing else: whatever fails while
    a record is processed (a read, a pod deletion, a key deletion, the
    conversion of [last_active]) is contained by the per-key [except] and
    the pass ends normally. *)
Theorem reaper_only_scans_reads_and_deletes env w :
  ∃ ok w' events,
    Reaper.tick env w = (Val ok, w') ∧
    log w' = log w ++ events ∧
    Forall reaper_event events ∧
    (ok = false ↔ redis_up env (calls w) = false) ∧
    (ok = false → events = [EvKeys] ∧ redis w' = observed env w).
Proof.
  unfold Reaper.tick, try_except, bind, redis_keys, redis_cmd.
  destruct (redis_up env (calls w)) eqn:Hup; cbn [fst snd].
  - unfold int_time.
    match goal with
    | |- context [Reaper.for_each ?ks (Reaper.reap_session ?now) env ?w1] =>
        destruct (for_each_reaper_events env now ks w1)
          as (w2 & events & Hrun & Hlog & Hall);
        rewrite Hrun
    end.
    exists true, w2, (EvKeys :: events). cbn [ret].
    split; [reflexivity|]. split.
    { rewrite Hlog. cbn [log called]. by rewrite <- app_assoc. }
    split; [by constructor|]. split; [done|done].
  - eexists false, _, [EvKeys]. cbn [ret].
    split; [reflexivity|]. split; [reflexivity|].
    split; [by repeat constructor|]. done.
Qed.

(** X24: a record whose [last_active] is not an integer literal is skipped:
    the [ValueError] is swallowed, nothing is deleted. *)
Theorem unreadable_last_active_is_never_reaped env w now key str :
  redis_up env (calls w) = true →
  Redis.hget key "last_active" (observed env w) = Some str →
  Py.int_of_str str = None →
  ∃ w', Reaper.reap_session now key env w = (Val tt, w') ∧
        log w' = log w ++ [EvHGet key "last_active"] ∧
        redis w' = observed env w.
Proof.
  intros Hup Hseen Hint.
  destruct (reap_session_run env w now key) as (w' & Hrun & Hlog & Hstore).
  exists w'. split; [done|].
  unfold reap_events, last_active_seen, observed in *.
  rewrite Hup, Hseen in *. cbn [evictable] in *. rewrite Hint in *.
  split; [done|]. apply Hstore. intros H. unlisted H.
Qed.

Lemma unreadable_last_active_is_never_reaped_witness :
  ∃ w', Reaper.reap_session 1700000000 "session:alice" Scenario.quiet
          (Scenario.world (Fixture.last_active_text "alice" "yesterday") 0)
        = (Val tt, w') ∧
        log w' = [EvHGet "session:alice" "last_active"] ∧
        redis w' = Fixture.last_active_text "alice" "yesterday".
Proof.
  exact (unreadable_last_active_is_never_reaped Scenario.quiet
           (Scenario.world (Fixture.last_active_text "alice" "yesterday") 0)
           1700000000 "session:alice" "yesterday" eq_refl eq_refl eq_refl).
Defined.

Lemma reap_session_store env w now key :
  healthy env →
  ∃ w', Reaper.reap_session now key env w = (Val tt, w') ∧
        redis w' = if idle_in now (redis w) key then Redis.del key (redis w)
                   else redis w.
Proof.
  intros (Hq & Hup & Hdel). unfold idle_in, evictable.
  unfold Reaper.reap_session, try_except, bind at 1. rewrite hget_up by done.
  rewrite Hq.
  destruct (Redis.hget key "last_active" (redis w)) as [str|]; simpl;
    [|eexists; split; [reflexivity|done]].
  destruct (Py.truthy str) eqn:Hstr; simpl.
  2:{ destruct str; [|done]. rewrite int_of_str_empty.
      eexists; split; [reflexivity|done]. }
  destruct (Py.int_of_str str) as [last_active|]; simpl;
    [|eexists; split; [reflexivity|done]].
  unfold Reaper.IDLE_TIMEOUT_SECONDS.
  destruct (now - last_active >? 600)%Z; simpl;
    [|eexists; split; [reflexivity|done]].
  unfold bind at 1, Reaper.delete_pod_step, try_except, bind at 1,
    Reaper.delete_namespaced_pod. cbn [calls called].
  specialize (Hdel (S (calls w)) (Reaper.pod_name_of_key key)).
  destruct (k8s_delete env (S (calls w)) _) as [[]|e]; simpl.
  - rewrite redis_delete_up by done. cbn [calls called redis]. rewrite Hq.
    eexists; split; [reflexivity|done].
  - destruct e; try done. simpl in Hdel. rewrite Hdel. simpl.
    rewrite redis_delete_up by done. cbn [calls called redis]. rewrite Hq.
    eexists; split; [reflexivity|done].
Qed.

Lemma for_each_store env now keys :
  healthy env →
  ∀ w, ∃ w',
    Reaper.for_each keys (Reaper.reap_session now) env w = (Val tt, w') ∧
    ∀ k, redis w' !! k =
         if bool_decide (k ∈ keys) && idle_in now (redis w) k then None
         else redis w !! k.
Proof.
  intros Hh. induction keys as [|key keys IH]; intros w.
  - exists w. split; [done|]. intros k.
    rewrite bool_decide_eq_false_2; [done|]. apply not_elem_of_nil.
  - destruct (reap_session_store env w now key Hh) as (w1 & Hrun & Hstore).
    destruct (IH w1) as (w2 & Hrest & Hlook).
    exists w2. cbn [Reaper.for_each]. unfold bind. rewrite Hrun. split; [done|].
    intros k. rewrite Hlook, Hstore. unfold idle_in, Redis.hget, Redis.hgetall, Redis.del.
    destruct (decide (k = key)) as [->|Hne].
    + rewrite (bool_decide_eq_true_2 (key ∈ key :: keys)) by apply list_elem_of_here.
      cbn [andb].
      destruct (idle_in now (redis w) key) eqn:Hidle;
        unfold idle_in, Redis.hget, Redis.hgetall in Hidle; rewrite Hidle.
      * rewrite lookup_delete_eq. cbn [default from_option]. rewrite lookup_empty.
        cbn [evictable]. by rewrite andb_false_r.
      * rewrite Hidle. by rewrite andb_false_r.
    + assert (Heq : (if evictable now (default ∅ (redis w !! key) !! "last_active")
                     then delete key (redis w) else redis w) !! k = redis w !! k).
      { destruct (evictable _ _); [by rewrite lookup_delete_ne|done]. }
      rewrite Heq.
      assert (Hin : bool_decide (k ∈ key :: keys) = bool_decide (k ∈ keys)).
      { apply bool_decide_ext. rewrite elem_of_cons.
        split; [by intros [?|?]|by right]. }
      by rewrite Hin.
Qed.

Lemma elem_of_keys_session k s :
  k ∈ Redis.keys_session s ↔ Redis.starts_with "session:" k = true ∧ is_Some (s !! k).
Proof.
  unfold Redis.keys_session. rewrite list_elem_of_filter, list_elem_of_fmap.
  split.
  - intros (Hp & [k' h] & -> & Hin). apply elem_of_map_to_list in Hin.
    split; [done|]. by exists h.
  - intros (Hp & h & Hh). split; [done|]. exists (k, h).
    split; [done|]. by apply elem_of_map_to_list.
Qed.

(** X25: on a quiet, healthy system one pass of the Reaper removes exactly
    the records under a key [session:...] whose [last_active] is more than
    600 s before the time read after listing the keys, and leaves every
    other key of the store as it was. *)
Theorem tick_deletes_exactly_the_idle_sessions env w :
  healthy env →
  ∃ w' now,
    Reaper.tick env w = (Val true, w') ∧
    now = ((clock w + 0 + Z.of_N (elapse env (calls w))) ÷ 1000)%Z ∧
    ∀ k, redis w' !! k =
         if Redis.starts_with "session:" k && idle_in now (redis w) k then None
         else redis w !! k.
Proof.
  intros Hh. pose proof Hh as (Hq & Hup & _).
  unfold Reaper.tick, try_except, bind at 1, redis_keys, redis_cmd.
  rewrite Hup, Hq. cbn [fst snd]. unfold bind, int_time.
  match goal with
  | |- context [Reaper.for_each ?ks (Reaper.reap_session ?now) env ?w1] =>
      destruct (for_each_store env now ks Hh w1) as (w2 & Hrun & Hlook)
  end.
  rewrite Hrun. eexists _, _. split; [reflexivity|].
  split; [reflexivity|]. intros k. rewrite Hlook. cbn [redis called clock].
  destruct (idle_in _ (redis w) k) eqn:Hidle; [|by rewrite !andb_false_r].
  rewrite !andb_true_r.
  destruct (Redis.starts_with "session:" k) eqn:Hp.
  - rewrite bool_decide_eq_true_2; [done|]. apply elem_of_keys_session.
    split; [done|]. unfold idle_in, Redis.hget, Redis.hgetall in Hidle.
    destruct (redis w !! k); [done|]. cbn [default from_option] in Hidle.
    by rewrite lookup_empty in Hidle.
  - rewrite bool_decide_eq_false_2; [done|]. rewrite elem_of_keys_session.
    intros [Hp' _]. congruence.
Qed.

Lemma quiet_is_healthy : healthy Scenario.quiet.
Proof. by repeat split. Defined.

Lemma tick_deletes_exactly_the_idle_sessions_witness :
  ∃ w' now,
    Reaper.tick Scenario.quiet
      (Scenario.world (Scenario.ready "bob" "10.0.0.9" 1000) 1700000) = (Val true, w') ∧
    now = 1700%Z ∧
    ∀ k, redis w' !! k =
         if Redis.starts_with "session:" k &&
            idle_in now (Scenario.ready "bob" "10.0.0.9" 1000) k
         then None
         else Scenario.ready "bob" "10.0.0.9" 1000 !! k.
Proof.
  exact (tick_deletes_exactly_the_idle_sessions Scenario.quiet
           (Scenario.world (Scenario.ready "bob" "10.0.0.9" 1000) 1700000)
           quiet_is_healthy).
Defined.
